(** * URL threat classifier: feature extraction, threat DNA, request handlers

    A shallow embedding of [app.py] and the properties of its feature
    extractor ([extract_features]), its threat scorer ([get_dna_scores])
    and its two request handlers ([predict], [bulk]).

    Conventions of the embedding.
    - A Python [str] is a list of Unicode code points ([N]).
    - A Python [int] is a [Z].
    - A Python [float] that the program computes as a quotient of two
      integers is the exact rational ([Q]) value of that quotient;
      [double] gives the IEEE binary64 number Python stores for it.
    - A [dict] with a fixed schema is a record; a [dict] keyed by class
      labels is a [gmap].
    - A raised exception is [None] (library code) or [Raised] (handlers). *)

From Stdlib Require Import ZArith NArith QArith Qminmax Qround Lia.
From Stdlib Require Import Ascii String.
From Stdlib Require Import Floats.PrimFloat Numbers.Cyclic.Int63.Uint63.
From stdpp Require Import base option list gmap.

Set Default Goal Selector "!".
Local Open Scope Z_scope.

(** ** Python strings *)

Definition char := N.
Bind Scope N_scope with char.
Abbreviation str := (list char).

(** Literals: the code point of an ASCII character, the [str] of an ASCII
    string literal. *)
Definition chr (a : ascii) : char := N_of_ascii a.
Definition pystr (s : string) : str := List.map chr (list_ascii_of_string s).

Arguments chr a%_char.
Arguments pystr s%_string.

(** The part of the Unicode character database the program consults.  The
    ASCII range is fixed below; the tables stand for every other code
    point.  [ucd_lower] is [str.lower] on a string with a non-ASCII
    character (it is not a per-character map: final sigma, expansions),
    [ucd_nfkc] is [unicodedata.normalize('NFKC', _)]. *)
Class UnicodeData := {
  ucd_isalpha   : char -> bool;
  ucd_isdecimal : char -> bool;
  ucd_isdigit   : char -> bool;
  ucd_isnumeric : char -> bool;
  ucd_isspace   : char -> bool;
  ucd_lower     : str -> str;
  ucd_nfkc      : str -> str;
}.

(** [ipaddress.ip_address]: the version of a literal address, [None] when
    the call raises [ValueError]. *)
Inductive ip_version := IPv4Address | IPv6Address.

Class IpAddress := {
  ip_address : str -> option ip_version;
}.

Module Str.
Section methods.
Context `{UnicodeData}.

Definition between (lo hi c : char) : bool := ((lo <=? c) && (c <=? hi))%N.

Definition isascii_char (c : char) : bool := (c <? 128)%N.
Definition isascii (s : str) : bool := forallb isascii_char s.

Definition ascii_upper_letter : char -> bool := between 65 90.
Definition ascii_lower_letter : char -> bool := between 97 122.
Definition ascii_digit : char -> bool := between 48 57.

Definition isalpha (ch : char) : bool :=
  if isascii_char ch then ascii_upper_letter ch || ascii_lower_letter ch
  else ucd_isalpha ch.
Definition isdecimal (ch : char) : bool :=
  if isascii_char ch then ascii_digit ch else ucd_isdecimal ch.
Definition isdigit (ch : char) : bool :=
  if isascii_char ch then ascii_digit ch else ucd_isdigit ch.
Definition isnumeric (ch : char) : bool :=
  if isascii_char ch then ascii_digit ch else ucd_isnumeric ch.
(** [Py_UNICODE_ISALNUM] *)
Definition isalnum (ch : char) : bool :=
  isalpha ch || isdecimal ch || isdigit ch || isnumeric ch.
(** [Py_UNICODE_ISSPACE]: TAB..CR, FS..US and SPACE in the ASCII range. *)
Definition isspace (ch : char) : bool :=
  if isascii_char ch then between 9 13 ch || between 28 32 ch
  else ucd_isspace ch.

Definition ascii_lower (ch : char) : char :=
  if ascii_upper_letter ch then (ch + 32)%N else ch.
(** [str.lower]: CPython lowers an all-ASCII string bytewise. *)
Definition lower (s : str) : str :=
  if isascii s then List.map ascii_lower s else ucd_lower s.

Definition len (s : str) : Z := Z.of_nat (length s).
Definition len_list (l : list str) : Z := Z.of_nat (length l).

(** [sum(p(ch) for ch in s)] *)
Definition sum_bool (p : char -> bool) (s : str) : Z :=
  Z.of_nat (length (List.filter p s)).

(** [s.count(ch)] for a one-character [ch]. *)
Definition count (ch : char) (s : str) : Z := sum_bool (N.eqb ch) s.

Fixpoint startswith (prefix s : str) : bool :=
  match prefix, s with
  | [], _ => true
  | p :: prefix', x :: s' => (p =? x)%N && startswith prefix' s'
  | _ :: _, [] => false
  end.

(** [sub in s] *)
Fixpoint contains (sub s : str) : bool :=
  startswith sub s ||
  match s with
  | [] => false
  | _ :: s' => contains sub s'
  end.

Definition has_char (ch : char) (s : str) : bool := existsb (N.eqb ch) s.

(** [s.find(ch)], [s.find(ch, start)], [s.rfind(ch)]; [None] is [-1]. *)
Fixpoint find (ch : char) (s : str) : option nat :=
  match s with
  | [] => None
  | x :: s' => if (x =? ch)%N then Some O else S <$> find ch s'
  end.
Definition find_from (ch : char) (start : nat) (s : str) : option nat :=
  (fun i => (start + i)%nat) <$> find ch (drop start s).
Fixpoint rfind (ch : char) (s : str) : option nat :=
  match s with
  | [] => None
  | x :: s' =>
      match rfind ch s' with
      | Some i => Some (S i)
      | None => if (x =? ch)%N then Some O else None
      end
  end.

(** [s.partition(ch)] and [s.rpartition(ch)] *)
Definition partition (ch : char) (s : str) : str * str * str :=
  match find ch s with
  | Some i => (take i s, [ch], drop (S i) s)
  | None => (s, [], [])
  end.
Definition rpartition (ch : char) (s : str) : str * str * str :=
  match rfind ch s with
  | Some i => (take i s, [ch], drop (S i) s)
  | None => ([], [], s)
  end.

(** [s.split(ch)]: always at least one piece. *)
Fixpoint split (ch : char) (s : str) : list str :=
  match s with
  | [] => [[]]
  | x :: s' =>
      if (x =? ch)%N then [] :: split ch s'
      else match split ch s' with
           | piece :: pieces => (x :: piece) :: pieces
           | [] => [[x]]
           end
  end.

(** [ch.join(pieces)] *)
Fixpoint join (ch : char) (pieces : list str) : str :=
  match pieces with
  | [] => []
  | [piece] => piece
  | piece :: pieces' => piece ++ ch :: join ch pieces'
  end.

(** [s.split(ch, 1)] when [ch in s]: the two pieces. *)
Definition split1 (ch : char) (s : str) : str * str :=
  match find ch s with
  | Some i => (take i s, drop (S i) s)
  | None => (s, [])
  end.

(** [s.replace(ch, '')] *)
Definition remove_char (ch : char) (s : str) : str :=
  List.filter (fun x => negb (x =? ch)%N) s.

(** [s.lstrip(chars)], and [s.strip()] on whitespace. *)
Fixpoint lstrip_if (p : char -> bool) (s : str) : str :=
  match s with
  | x :: s' => if p x then lstrip_if p s' else s
  | [] => []
  end.
Definition rstrip_if (p : char -> bool) (s : str) : str :=
  rev (lstrip_if p (rev s)).
Definition strip (s : str) : str := rstrip_if isspace (lstrip_if isspace s).

(** [a == b] *)
Fixpoint eqb (a b : str) : bool :=
  match a, b with
  | [], [] => true
  | x :: a', y :: b' => (x =? y)%N && eqb a' b'
  | _, _ => false
  end.
End methods.
End Str.

(** ** Regular expressions

    The two patterns the program meets are sequences of quantified
    character classes; [re_search] and [re_fullmatch] decide them by
    backtracking, greedy first, as [re] does. *)
Module Re.
Record item := Item {
  cls : char -> bool;
  lo  : nat;
  hi  : option nat;   (* [None]: no upper bound *)
}.
Definition pattern := list item.

Fixpoint exactly (p : char -> bool) (n : nat) (s : str) (k : str -> bool) : bool :=
  match n with
  | O => k s
  | S n' =>
      match s with
      | x :: s' => p x && exactly p n' s' k
      | [] => false
      end
  end.

Fixpoint greedy (p : char -> bool) (n : nat) (s : str) (k : str -> bool) : bool :=
  match n, s with
  | S n', x :: s' => (p x && greedy p n' s' k) || k s
  | _, _ => k s
  end.

Fixpoint match_here (pat : pattern) (s : str) (k : str -> bool) : bool :=
  match pat with
  | [] => k s
  | it :: pat' =>
      exactly (cls it) (lo it) s (fun s1 =>
        let more := match hi it with
                    | Some h => (h - lo it)%nat
                    | None => length s1
                    end in
        greedy (cls it) more s1 (fun s2 => match_here pat' s2 k))
  end.

(** [re.search(pat, s) is not None] *)
Fixpoint re_search (pat : pattern) (s : str) : bool :=
  match_here pat s (fun _ => true) ||
  match s with
  | [] => false
  | _ :: s' => re_search pat s'
  end.

(** [re.match(r'\A' pat r'\Z', s) is not None] *)
Definition re_fullmatch (pat : pattern) (s : str) : bool :=
  match_here pat s (fun rest => match rest with [] => true | _ => false end).

Definition lit (ch : char) : item := Item (N.eqb ch) 1 (Some 1%nat).
End Re.

(** ** [urllib.parse]

    [urlsplit], [urlparse] and the [hostname] property, for a [str]
    argument and the default [scheme=''], [allow_fragments=True].
    [None] is a raised [ValueError]. *)
Module Urllib.
Section parse.
Context `{UnicodeData} `{IpAddress}.

Record ParseResult := {
  scheme   : str;
  netloc   : str;
  path     : str;
  params   : str;
  query    : str;
  fragment : str;
}.

Definition uses_params : list str :=
  List.map pystr
    [""; "ftp"; "hdl"; "prospero"; "http"; "imap"; "https"; "shttp"; "rtsp";
     "rtspu"; "sip"; "sips"; "mms"; "sftp"; "tel"]%string.

(** [scheme_chars]: ASCII letters, digits and [+-.] *)
Definition scheme_char (ch : char) : bool :=
  Str.ascii_lower_letter ch || Str.ascii_upper_letter ch || Str.ascii_digit ch
  || (ch =? chr "+")%N || (ch =? chr "-")%N || (ch =? chr ".")%N.

(** [_WHATWG_C0_CONTROL_OR_SPACE] *)
Definition c0_control_or_space (ch : char) : bool := (ch <=? 32)%N.

(** [_UNSAFE_URL_BYTES_TO_REMOVE]: TAB, CR, LF *)
Definition remove_unsafe (url : str) : str :=
  Str.remove_char 10 (Str.remove_char 13 (Str.remove_char 9 url)).

Definition _splitparams (url : str) : str * str :=
  if Str.has_char (chr "/") url then
    match Str.find_from (chr ";") (default O (Str.rfind (chr "/") url)) url with
    | Some i => (take i url, drop (S i) url)
    | None => (url, [])
    end
  else
    match Str.find (chr ";") url with
    | Some i => (take i url, drop (S i) url)
    | None => (url, [])   (* not reached: the caller saw a [;] *)
    end.

Definition _splitnetloc (url : str) (start : nat) : str * str :=
  let delim :=
    foldl (fun delim ch =>
             match Str.find_from ch start url with
             | Some wdelim => Nat.min delim wdelim
             | None => delim
             end)
          (length url) [chr "/"; chr "?"; chr "#"] in
  (drop start (take delim url), drop delim url).

(** [_checknetloc]: [true] when it returns, [false] when it raises. *)
Definition _checknetloc (netloc : str) : bool :=
  if Str.eqb netloc [] || Str.isascii netloc then true
  else
    let n := Str.remove_char (chr "?")
               (Str.remove_char (chr "#")
                  (Str.remove_char (chr ":")
                     (Str.remove_char (chr "@") netloc))) in
    let netloc2 := ucd_nfkc n in
    if Str.eqb n netloc2 then true
    else negb (existsb (fun ch => Str.has_char ch netloc2)
                 [chr "/"; chr "?"; chr "#"; chr "@"; chr ":"]).

Definition hex_char (ch : char) : bool :=
  Str.between (chr "a") (chr "f") ch || Str.between (chr "A") (chr "F") ch
  || Str.ascii_digit ch.

(** [v[a-fA-F0-9]+\..+] ([.] is any character but a newline) *)
Definition ipvfuture : Re.pattern :=
  [ Re.lit (chr "v"); Re.Item hex_char 1 None; Re.lit (chr ".");
    Re.Item (fun ch => negb (ch =? 10)%N) 1 None ].

Definition _check_bracketed_host (hostname : str) : bool :=
  if Str.startswith (pystr "v") hostname then Re.re_fullmatch ipvfuture hostname
  else match ip_address hostname with
       | Some IPv6Address => true
       | Some IPv4Address => false
       | None => false
       end.

Definition _check_bracketed_netloc (netloc : str) : bool :=
  let hostname_and_port := (Str.rpartition (chr "@") netloc).2 in
  let '(before_bracket, have_open_br, bracketed) :=
    Str.partition (chr "[") hostname_and_port in
  match have_open_br with
  | _ :: _ =>
      match before_bracket with
      | _ :: _ => false
      | [] =>
          let '(hostname, _, port) := Str.partition (chr "]") bracketed in
          match port with
          | _ :: _ =>
              if Str.startswith (pystr ":") port
              then _check_bracketed_host hostname else false
          | [] => _check_bracketed_host hostname
          end
      end
  | [] =>
      let '(hostname, _, _) := Str.partition (chr ":") hostname_and_port in
      _check_bracketed_host hostname
  end.

(** The five components: scheme, netloc, url (path), query, fragment. *)
Definition urlsplit (url : str) : option (str * str * str * str * str) :=
  let url := Str.lstrip_if c0_control_or_space url in
  let url := remove_unsafe url in
  let '(scheme, url) :=
    match Str.find (chr ":") url, url with
    | Some (S i'), ch0 :: _ =>
        if Str.isascii_char ch0 && Str.isalpha ch0
           && forallb scheme_char (take (S i') url)
        then (Str.lower (take (S i') url), drop (S (S i')) url)
        else ([], url)
    | _, _ => ([], url)
    end in
  let '(netloc, url, valid) :=
    if Str.startswith (pystr "//") url then
      let '(netloc, url) := _splitnetloc url 2 in
      let open_br := Str.has_char (chr "[") netloc in
      let close_br := Str.has_char (chr "]") netloc in
      if (open_br && negb close_br) || (close_br && negb open_br)
      then (netloc, url, false)
      else if open_br && close_br
           then (netloc, url, _check_bracketed_netloc netloc)
           else (netloc, url, true)
    else ([], url, true) in
  let '(url, fragment) :=
    if Str.has_char (chr "#") url then Str.split1 (chr "#") url else (url, []) in
  let '(url, query) :=
    if Str.has_char (chr "?") url then Str.split1 (chr "?") url else (url, []) in
  if valid && _checknetloc netloc
  then Some (scheme, netloc, url, query, fragment)
  else None.

Definition urlparse (url : str) : option ParseResult :=
  '(scheme, netloc, url, query, fragment) ← urlsplit url;
  let '(url, params) :=
    if existsb (Str.eqb scheme) uses_params && Str.has_char (chr ";") url
    then _splitparams url else (url, []) in
  Some {| scheme := scheme; netloc := netloc; path := url;
          params := params; query := query; fragment := fragment |}.

Definition _hostinfo (r : ParseResult) : str * option str :=
  let '(_, _, hostinfo) := Str.rpartition (chr "@") (netloc r) in
  let '(_, have_open_br, bracketed) := Str.partition (chr "[") hostinfo in
  let '(hostname, port) :=
    match have_open_br with
    | _ :: _ =>
        let '(hostname, _, port) := Str.partition (chr "]") bracketed in
        let '(_, _, port) := Str.partition (chr ":") port in
        (hostname, port)
    | [] =>
        let '(hostname, _, port) := Str.partition (chr ":") hostinfo in
        (hostname, port)
    end in
  (hostname, match port with [] => None | _ => Some port end).

(** The [hostname] property; [None] is Python's [None]. *)
Definition hostname (r : ParseResult) : option str :=
  match (_hostinfo r).1 with
  | [] => None
  | hostname =>
      let '(hostname, percent, zone) := Str.partition (chr "%") hostname in
      Some (Str.lower hostname ++ percent ++ zone)
  end.
End parse.
End Urllib.

(** ** The feature extractor and the threat scorer *)

(** The [features] dict: its 24 keys, in the order the source lists them. *)
Record FeatureRecord := {
  url_length          : Z;
  hostname_length     : Z;
  path_length         : Z;
  num_dots            : Z;
  num_hyphens         : Z;
  num_underscores     : Z;
  num_slashes         : Z;
  num_at              : Z;
  num_question        : Z;
  num_equals          : Z;
  num_ampersand       : Z;
  num_percent         : Z;
  num_digits          : Z;
  has_ip              : Z;
  has_https           : Z;
  has_www             : Z;
  has_at_sign         : Z;
  has_double_slash    : Z;
  has_hex_encoding    : Z;
  num_subdomains      : Z;
  has_suspicious_word : Z;
  digit_ratio         : Q;
  letter_ratio        : Q;
  special_ratio       : Q;
}.

(** The dict [get_dna_scores] returns: 'Length Risk', 'Special Chars',
    'Suspicious KW', 'IP Address', 'Subdomain Depth', 'Digit Density',
    'Hyphen Abuse', 'Encoding Tricks'. *)
Record ThreatDNA := {
  dna_length_risk     : Q;
  dna_special_chars   : Q;
  dna_suspicious_kw   : Q;
  dna_ip_address      : Q;
  dna_subdomain_depth : Q;
  dna_digit_density   : Q;
  dna_hyphen_abuse    : Q;
  dna_encoding_tricks : Q;
}.

(** [a / b] on two ints. *)
Definition truediv (a b : Z) : Q := (inject_Z a / inject_Z b)%Q.

(** The double Python stores for [a / b]: for operands below [2^53] the
    interpreter converts both to doubles and divides them. *)
Definition double_of_int (z : Z) : float := PrimFloat.of_uint63 (Uint63.of_Z z).
Definition double (q : Q) : float :=
  PrimFloat.div (double_of_int (Qnum q)) (double_of_int (Z.pos (Qden q))).

(** [1 if b else 0] *)
Definition flag (b : bool) : Z := if b then 1 else 0.

(** [\d{1,3}\.\d{1,3}\.\d{1,3}\.\d{1,3}]; [\d] is a Unicode decimal digit. *)
Definition ip_pattern `{UnicodeData} : Re.pattern :=
  let d := Re.Item Str.isdecimal 1 (Some 3%nat) in
  let dot := Re.lit (chr ".") in
  [d; dot; d; dot; d; dot; d].

Definition suspicious_words : list str :=
  List.map pystr
    ["login"; "secure"; "account"; "update"; "bank"; "verify";
     "confirm"; "paypal"; "signin"; "ebay"; "admin"; "password"]%string.

Section core.
Context `{UnicodeData} `{IpAddress}.

(** Lines 17-23: the [try]/[except] around [urlparse]. *)
Definition parse_step (url : str) : str * str :=
  match Urllib.urlparse
          (if Str.startswith (pystr "http") url then url
           else pystr "http://" ++ url) with
  | Some parsed =>
      (default [] (Urllib.hostname parsed), Urllib.path parsed)
  | None => ([], url)
  end.

Definition extract_features (url : str) : FeatureRecord :=
  let '(hostname, path) := parse_step url in
  {| url_length          := Str.len url;
     hostname_length     := Str.len hostname;
     path_length         := Str.len path;
     num_dots            := Str.count (chr ".") url;
     num_hyphens         := Str.count (chr "-") url;
     num_underscores     := Str.count (chr "_") url;
     num_slashes         := Str.count (chr "/") url;
     num_at              := Str.count (chr "@") url;
     num_question        := Str.count (chr "?") url;
     num_equals          := Str.count (chr "=") url;
     num_ampersand       := Str.count (chr "&") url;
     num_percent         := Str.count (chr "%") url;
     num_digits          := Str.sum_bool Str.isdigit url;
     has_ip              := flag (Re.re_search ip_pattern url);
     has_https           := flag (Str.startswith (pystr "https") url);
     has_www             := flag (Str.contains (pystr "www.") url);
     has_at_sign         := flag (Str.has_char (chr "@") url);
     has_double_slash    := flag (Str.contains (pystr "//") (drop 7 url));
     has_hex_encoding    := flag (Str.has_char (chr "%") url);
     num_subdomains      :=
       match hostname with
       | _ :: _ => Str.len_list (Str.split (chr ".") hostname) - 2
       | [] => 0
       end;
     has_suspicious_word :=
       flag (existsb (fun w => Str.contains w (Str.lower url)) suspicious_words);
     digit_ratio         :=
       truediv (Str.sum_bool Str.isdigit url) (Z.max (Str.len url) 1);
     letter_ratio        :=
       truediv (Str.sum_bool Str.isalpha url) (Z.max (Str.len url) 1);
     special_ratio       :=
       truediv (Str.sum_bool (fun ch => negb (Str.isalnum ch)) url)
               (Z.max (Str.len url) 1);
  |}.

(** [features] is a dict the caller keeps using: a function that
    receives it is a computation over its contents, from the dict it
    gets to its result and the dict it leaves. *)
Definition on_features (A : Type) : Type := FeatureRecord -> A * FeatureRecord.
(** [features[key]] *)
Definition getitem {A} (key : FeatureRecord -> A) : on_features A :=
  fun features => (key features, features).
Definition rret {A} (a : A) : on_features A := fun features => (a, features).
Definition rbind {A B} (m : on_features A) (k : A -> on_features B) : on_features B :=
  fun features => let '(a, features') := m features in k a features'.

Definition get_dna_scores (url : str) : on_features ThreatDNA :=
  rbind (getitem special_ratio) (fun special_ratio =>
  rbind (getitem has_suspicious_word) (fun has_suspicious_word =>
  rbind (getitem has_ip) (fun has_ip =>
  rbind (getitem num_subdomains) (fun num_subdomains =>
  rbind (getitem digit_ratio) (fun digit_ratio =>
  rbind (getitem num_hyphens) (fun num_hyphens =>
  rbind (getitem has_hex_encoding) (fun has_hex_encoding =>
  rret
    {| dna_length_risk     := Qmin (truediv (Str.len url) 150) 1;
       dna_special_chars   := Qmin (special_ratio * 3) 1;
       dna_suspicious_kw   := inject_Z has_suspicious_word;
       dna_ip_address      := inject_Z has_ip;
       dna_subdomain_depth := Qmin (truediv (Z.max num_subdomains 0) 4) 1;
       dna_digit_density   := Qmin (digit_ratio * 4) 1;
       dna_hyphen_abuse    := Qmin (truediv num_hyphens 6) 1;
       dna_encoding_tricks := inject_Z has_hex_encoding;
    |}))))))).
End core.

(** ** The classifier boundary

    [model] and [le] are loaded from pickled artefacts; the program sees
    them through [model.predict], [model.predict_proba], [le.classes_] and
    [le.inverse_transform]. *)
Class Classifier := {
  model_predict       : FeatureRecord -> Z;        (* [model.predict(df)[0]] *)
  model_predict_proba : FeatureRecord -> list Q;   (* [model.predict_proba(df)[0]] *)
  le_classes          : list str;                  (* [le.classes_] *)
}.

(** [le.inverse_transform([y])[0]]: the label at index [y]; an index that
    is not in [range(len(le.classes_))] raises [ValueError]. *)
Definition le_inverse_transform `{Classifier} (y : Z) : option str :=
  if (0 <=? y) then le_classes !! Z.to_nat y else None.

(** ** Handlers: results, exceptions and the calls they make *)

(** The work a handler does on a URL, in the order it happens. *)
Inductive call :=
| ExtractFeatures (url : str)
| ModelPredict (features : FeatureRecord)
| ModelPredictProba (features : FeatureRecord)
| InverseTransform (y : Z).

Inductive outcome (A : Type) :=
| Returned (a : A)
| Raised.            (* an exception the handler does not catch *)
Arguments Returned {A} a.
Arguments Raised {A}.

(** A computation: its outcome and the calls made on the way. *)
Definition run (A : Type) : Type := outcome A * list call.

Definition ret {A} (a : A) : run A := (Returned a, []).
Definition raise {A} : run A := (Raised, []).
Definition bind {A B} (m : run A) (k : A -> run B) : run B :=
  match m with
  | (Returned a, t) => let '(r, t') := k a in (r, t ++ t')
  | (Raised, t) => (Raised, t)
  end.
Definition traced {A} (e : call) (r : option A) : run A :=
  (match r with Some a => Returned a | None => Raised end, [e]).

Notation "x <~ m ;; k" := (bind m (fun x => k))
  (at level 100, m at next level, right associativity).

(** [round(x, ndigits)]: the nearest multiple of [10^-ndigits], ties to
    the even one. *)
Definition round_half_even (x : Q) : Z :=
  let fl := Qfloor x in
  match Qcompare (x - inject_Z fl) (1 # 2) with
  | Lt => fl
  | Gt => fl + 1
  | Eq => if Z.even fl then fl else fl + 1
  end.
Definition round_ndigits (x : Q) (ndigits : nat) : Q :=
  (inject_Z (round_half_even (x * inject_Z (10 ^ Z.of_nat ndigits)))
   / inject_Z (10 ^ Z.of_nat ndigits))%Q.

(** [max(xs)]; [None] on an empty sequence ([ValueError]). *)
Definition max_seq (xs : list Q) : option Q :=
  match xs with
  | [] => None
  | x :: xs' => Some (foldl (fun m y => if Qlt_le_dec m y then y else m) x xs')
  end.

(** One entry of [results]. *)
Record result := {
  r_url           : str;
  r_prediction    : str;
  r_confidence    : Q;
  r_probabilities : gmap str Q;
}.

(** What a handler hands to Flask. *)
Inductive response :=
| ErrorResponse (error : string) (status : Z)
| PredictResponse (url prediction : str) (probabilities : gmap str Q)
                  (dna : ThreatDNA) (confidence : Q)
| BulkResponse (results : list result) (summary : gmap str Z) (total : Z).

Section handlers.
Context `{UnicodeData} `{IpAddress} `{Classifier}.

(** [{cls: round(float(p), 4) for cls, p in zip(le.classes_, probs)}] *)
Definition prob_dict (probs : list Q) : gmap str Q :=
  foldl (fun d '(cls, p) => <[cls := round_ndigits p 4]> d) ∅
        (zip le_classes probs).

(** [round(float(max(probs)) * 100, 1)] *)
Definition confidence_of (probs : list Q) : option Q :=
  (fun m => round_ndigits (m * 100) 1) <$> max_seq probs.

Definition predict (data_url : option str) : run response :=
  let url := Str.strip (default [] data_url) in
  match url with
  | [] => ret (ErrorResponse "No URL provided" 400)
  | _ :: _ =>
      features <~ traced (ExtractFeatures url) (Some (extract_features url));;
      prediction <~ traced (ModelPredict features) (Some (model_predict features));;
      probabilities <~ traced (ModelPredictProba features)
                              (Some (model_predict_proba features));;
      predicted_class <~ traced (InverseTransform prediction)
                                (le_inverse_transform prediction);;
      let prob_dict := prob_dict probabilities in
      let '(dna, features) := get_dna_scores url features in
      match confidence_of probabilities with
      | Some confidence =>
          ret (PredictResponse url predicted_class prob_dict dna confidence)
      | None => raise
      end
  end.

(** The body of [for url in urls], from [results] to [results]. *)
Definition bulk_step (results : list result) (url : str) : run (list result) :=
  let url := Str.strip url in
  match url with
  | [] => ret results                               (* [continue] *)
  | _ :: _ =>
      features <~ traced (ExtractFeatures url) (Some (extract_features url));;
      prediction <~ traced (ModelPredict features) (Some (model_predict features));;
      probs <~ traced (ModelPredictProba features)
                      (Some (model_predict_proba features));;
      pred_class <~ traced (InverseTransform prediction)
                           (le_inverse_transform prediction);;
      match confidence_of probs with
      | Some confidence =>
          ret (results ++ [ {| r_url := url; r_prediction := pred_class;
                               r_confidence := confidence;
                               r_probabilities := prob_dict probs |} ])
      | None => raise
      end
  end.

Fixpoint bulk_loop (urls : list str) (results : list result) : run (list result) :=
  match urls with
  | [] => ret results
  | url :: urls' =>
      results <~ bulk_step results url;;
      bulk_loop urls' results
  end.

(** [sum(1 for r in results if r['prediction'] == c)] *)
Definition tally (results : list result) (c : str) : Z :=
  Z.of_nat (length (List.filter (fun r => Str.eqb (r_prediction r) c) results)).

(** [{c: tally for c in le.classes_}] *)
Definition summary_of (results : list result) : gmap str Z :=
  foldl (fun d c => <[c := tally results c]> d) ∅ le_classes.

Definition bulk (data_urls : option (list str)) : run response :=
  let urls := default [] data_urls in
  match urls with
  | [] => ret (ErrorResponse "No URLs provided" 400)
  | _ :: _ =>
      if (500 <? Z.of_nat (length urls)) then
        ret (ErrorResponse "Max 500 URLs per batch" 400)
      else
        results <~ bulk_loop urls [];;
        ret (BulkResponse results (summary_of results)
                          (Z.of_nat (length results)))
  end.

(** *** Vocabulary of the properties *)

(** The entries of a batch that survive [strip]. *)
Definition surviving (urls : list str) : list str :=
  List.filter (fun url => negb (Str.eqb url [])) (List.map Str.strip urls).

(** The entry of [results] one surviving URL stands for, on its own. *)
Definition classify (url : str) : option result :=
  let features := extract_features url in
  pred_class ← le_inverse_transform (model_predict features);
  confidence ← confidence_of (model_predict_proba features);
  Some {| r_url := url; r_prediction := pred_class;
          r_confidence := confidence;
          r_probabilities := prob_dict (model_predict_proba features) |}.

(** The calls one surviving URL costs. *)
Definition calls_for (url : str) : list call :=
  let features := extract_features url in
  [ ExtractFeatures url; ModelPredict features; ModelPredictProba features;
    InverseTransform (model_predict features) ].

(** The classifier and the label encoder fit together: every predicted
    index has a label and every probability vector has an entry. *)
Definition classifier_answers : Prop :=
  forall features,
    0 <= model_predict features < Z.of_nat (length le_classes) /\
    model_predict_proba features <> [].
End handlers.

(** [sum(xs)] *)
Definition sum_list (xs : list Z) : Z := foldr Z.add 0 xs.

(** The characters of a plain host name: ASCII letters, digits, [-], [.] *)
Definition host_char (ch : char) : bool :=
  Str.ascii_lower_letter ch || Str.ascii_upper_letter ch || Str.ascii_digit ch
  || (ch =? chr "-")%N || (ch =? chr ".")%N.

(** What may follow the host: nothing, or a path, query or fragment. *)
Definition host_ends (tail : str) : Prop :=
  tail = [] \/
  exists d tail', tail = d :: tail' /\ (d = chr "/" \/ d = chr "?" \/ d = chr "#").


(** The two error classes, as the responses that signal them. *)
Definition InvalidInput (r : response) : Prop :=
  r = ErrorResponse "No URL provided" 400 \/ r = ErrorResponse "No URLs provided" 400.
Definition BatchTooLarge (r : response) : Prop :=
  r = ErrorResponse "Max 500 URLs per batch" 400.

(** [sum(summary.values())] *)
Definition sum_values (d : gmap str Z) : Z :=
  map_fold (fun _ v acc => v + acc) 0 d.

(** [urlsplit] in two steps, for the proofs: the scheme is cut off, then
    the rest is cut into netloc, path, query and fragment and checked. *)
Section urlsplit_steps.
Context `{UnicodeData} `{IpAddress}.

Definition split_scheme (url : str) : str * str :=
  match Str.find (chr ":") url, url with
  | Some (S i'), ch0 :: _ =>
      if Str.isascii_char ch0 && Str.isalpha ch0
         && forallb Urllib.scheme_char (take (S i') url)
      then (Str.lower (take (S i') url), drop (S (S i')) url)
      else ([], url)
  | _, _ => ([], url)
  end.

Definition split_after_scheme (scheme url : str)
  : option (str * str * str * str * str) :=
  let '(netloc, url, valid) :=
    if Str.startswith (pystr "//") url then
      let '(netloc, url) := Urllib._splitnetloc url 2 in
      let open_br := Str.has_char (chr "[") netloc in
      let close_br := Str.has_char (chr "]") netloc in
      if (open_br && negb close_br) || (close_br && negb open_br)
      then (netloc, url, false)
      else if open_br && close_br
           then (netloc, url, Urllib._check_bracketed_netloc netloc)
           else (netloc, url, true)
    else ([], url, true) in
  let '(url, fragment) :=
    if Str.has_char (chr "#") url then Str.split1 (chr "#") url else (url, []) in
  let '(url, query) :=
    if Str.has_char (chr "?") url then Str.split1 (chr "?") url else (url, []) in
  if valid && Urllib._checknetloc netloc
  then Some (scheme, netloc, url, query, fragment)
  else None.
End urlsplit_steps.

(** What a pattern matches, read off its items: a string cut into one
    piece per item, each piece of the item's class and within its bounds. *)
Definition matches_item (it : Re.item) (piece : str) : Prop :=
  (Re.lo it <= length piece)%nat /\
  match Re.hi it with
  | Some h => (length piece <= h)%nat
  | None => True
  end /\
  forallb (Re.cls it) piece = true.

Fixpoint matches (pat : Re.pattern) (s : str) : Prop :=
  match pat with
  | [] => s = []
  | it :: pat' =>
      exists piece s', s = piece ++ s' /\ matches_item it piece /\ matches pat' s'
  end.

(** An item whose bounds an [re] pattern can have. *)
Definition item_wf (it : Re.item) : Prop :=
  match Re.hi it with
  | Some h => (Re.lo it <= h)%nat
  | None => True
  end.

(** One to three decimal digits. *)
Definition digit_group `{UnicodeData} (g : str) : Prop :=
  (1 <= length g <= 3)%nat /\ forallb Str.isdecimal g = true.

(** Four dot-separated digit groups somewhere in the string. *)
Definition ipv4_shaped `{UnicodeData} (s : str) : Prop :=
  exists pre g1 g2 g3 g4 post,
    s = pre ++ g1 ++ chr "." :: g2 ++ chr "." :: g3 ++ chr "." :: g4 ++ post /\
    digit_group g1 /\ digit_group g2 /\ digit_group g3 /\ digit_group g4.

(** ** Fixtures for the closed examples

    Tables that list no character beyond ASCII, an address parser that
    accepts no literal, and a two-class classifier that calls a URL with
    an IPv4-shaped substring [phishing]. *)
Definition ascii_tables : UnicodeData := {|
  ucd_isalpha   := fun _ => false;
  ucd_isdecimal := fun _ => false;
  ucd_isdigit   := fun _ => false;
  ucd_isnumeric := fun _ => false;
  ucd_isspace   := fun _ => false;
  ucd_lower     := List.map Str.ascii_lower;
  ucd_nfkc      := fun s => s;
|}.

Definition no_ip_literals : IpAddress := {| ip_address := fun _ => None |}.

Definition two_class_classifier : Classifier := {|
  model_predict       := fun features => if (has_ip features =? 1) then 1 else 0;
  model_predict_proba := fun features =>
    if (has_ip features =? 1) then [1 # 8; 7 # 8]%Q else [3 # 4; 1 # 4]%Q;
  le_classes          := [pystr "benign"; pystr "phishing"];
|}.

(** A classifier trained on three classes beside an encoder that knows
    two: its index for an IPv4-shaped URL has no label. *)
Definition stale_classifier : Classifier := {|
  model_predict       := fun features => if (has_ip features =? 1) then 2 else 0;
  model_predict_proba := fun features => [1 # 2; 1 # 4; 1 # 4]%Q;
  le_classes          := [pystr "benign"; pystr "phishing"];
|}.

(** * Properties *)

(** ** Counting characters *)
Section counting.
Context `{UnicodeData}.

Lemma sum_bool_nonneg (p : char -> bool) (s : str) : 0 <= Str.sum_bool p s.
Proof. unfold Str.sum_bool. lia. Qed.

Lemma sum_bool_le_len (p : char -> bool) (s : str) :
  Str.sum_bool p s <= Str.len s.
Proof.
  unfold Str.sum_bool, Str.len.
  apply inj_le. induction s as [|x s IH]; simpl; [lia|].
  destruct (p x); simpl; lia.
Qed.

(** Three pairwise exclusive classes cannot count more characters than
    the string has. *)
Lemma sum_bool_exclusive3 (p q r : char -> bool) (s : str) :
  (forall ch, p ch = true -> q ch = false) ->
  (forall ch, p ch = true -> r ch = false) ->
  (forall ch, q ch = true -> r ch = false) ->
  Str.sum_bool p s + Str.sum_bool q s + Str.sum_bool r s <= Str.len s.
Proof.
  intros Hpq Hpr Hqr. unfold Str.sum_bool, Str.len.
  induction s as [|x s IH]; simpl; [lia|].
  specialize (Hpq x). specialize (Hpr x). specialize (Hqr x).
  destruct (p x), (q x), (r x); simpl;
    try (discriminate (Hpq eq_refl)); try (discriminate (Hpr eq_refl));
    try (discriminate (Hqr eq_refl)); lia.
Qed.

Lemma isalpha_isalnum (ch : char) : Str.isalpha ch = true -> Str.isalnum ch = true.
Proof. unfold Str.isalnum. intros ->. reflexivity. Qed.

Lemma isdigit_isalnum (ch : char) : Str.isdigit ch = true -> Str.isalnum ch = true.
Proof.
  unfold Str.isalnum. intros ->.
  rewrite !orb_true_r. reflexivity.
Qed.

(** In the ASCII range a letter is not a digit; beyond it the table
    decides. *)
Lemma isalpha_not_isdigit (ch : char) :
  (forall x, ucd_isalpha x = true -> ucd_isdigit x = false) ->
  Str.isdigit ch = true -> Str.isalpha ch = false.
Proof.
  intros Htable. unfold Str.isdigit, Str.isalpha.
  destruct (Str.isascii_char ch).
  - unfold Str.ascii_digit, Str.ascii_upper_letter, Str.ascii_lower_letter,
      Str.between.
    intros Hd. apply andb_true_iff in Hd as [H1 H2].
    apply N.leb_le in H1, H2.
    apply orb_false_iff; split; apply andb_false_iff.
    + left. apply N.leb_gt. lia.
    + left. apply N.leb_gt. lia.
  - intros Hd. destruct (ucd_isalpha ch) eqn:Ha; [|reflexivity].
    rewrite (Htable _ Ha) in Hd. discriminate.
Qed.
End counting.

(** ** Quotients of two ints *)

Lemma truediv_nonneg (a b : Z) : 0 <= a -> 0 < b -> (0 <= truediv a b)%Q.
Proof.
  intros Ha Hb. unfold truediv.
  apply Qle_shift_div_l.
  - rewrite (Zlt_Qlt 0 b) in Hb. exact Hb.
  - rewrite Qmult_0_l. rewrite (Zle_Qle 0 a) in Ha. exact Ha.
Qed.

Lemma truediv_le_1 (a b : Z) : a <= b -> 0 < b -> (truediv a b <= 1)%Q.
Proof.
  intros Hab Hb. unfold truediv.
  apply Qle_shift_div_r.
  - rewrite (Zlt_Qlt 0 b) in Hb. exact Hb.
  - rewrite Qmult_1_l. rewrite (Zle_Qle a b) in Hab. exact Hab.
Qed.

Lemma truediv_zero (b : Z) : (truediv 0 b == 0)%Q.
Proof. unfold truediv, Qdiv. apply Qmult_0_l. Qed.

Lemma truediv_add (a b d : Z) :
  0 < d -> (truediv a d + truediv b d == truediv (a + b) d)%Q.
Proof.
  intros Hd. unfold truediv, Qdiv.
  rewrite inject_Z_plus. ring.
Qed.

Lemma max_len_pos (s : str) : 0 < Z.max (Str.len s) 1.
Proof. lia. Qed.

Lemma len_le_max (s : str) : Str.len s <= Z.max (Str.len s) 1.
Proof. lia. Qed.

(** [min(x, 1.0)] of a non-negative [x] is a score. *)
Lemma clamp_range (x : Q) : (0 <= x)%Q -> (0 <= Qmin x 1 <= 1)%Q.
Proof.
  intros Hx. split.
  - apply Q.min_glb; [exact Hx | discriminate].
  - apply Q.le_min_r.
Qed.

Lemma clamp_saturates (x : Q) : (1 <= x)%Q -> (Qmin x 1 == 1)%Q.
Proof. intros Hx. apply Q.min_r. exact Hx. Qed.

(** ** The feature extractor *)
Section extractor.
Context `{UnicodeData} `{IpAddress}.

Lemma extract_features_url_length (url : str) :
  url_length (extract_features url) = Str.len url.
Proof. unfold extract_features. destruct (parse_step url). reflexivity. Qed.

Lemma extract_features_digit_ratio (url : str) :
  digit_ratio (extract_features url)
  = truediv (Str.sum_bool Str.isdigit url) (Z.max (Str.len url) 1).
Proof. unfold extract_features. destruct (parse_step url). reflexivity. Qed.

Lemma extract_features_letter_ratio (url : str) :
  letter_ratio (extract_features url)
  = truediv (Str.sum_bool Str.isalpha url) (Z.max (Str.len url) 1).
Proof. unfold extract_features. destruct (parse_step url). reflexivity. Qed.

Lemma extract_features_special_ratio (url : str) :
  special_ratio (extract_features url)
  = truediv (Str.sum_bool (fun ch => negb (Str.isalnum ch)) url)
            (Z.max (Str.len url) 1).
Proof. unfold extract_features. destruct (parse_step url). reflexivity. Qed.

Lemma ratio_range (p : char -> bool) (url : str) :
  (0 <= truediv (Str.sum_bool p url) (Z.max (Str.len url) 1) <= 1)%Q.
Proof.
  split.
  - apply truediv_nonneg; [apply sum_bool_nonneg | apply max_len_pos].
  - apply truediv_le_1; [|apply max_len_pos].
    etransitivity; [apply sum_bool_le_len | apply len_le_max].
Qed.

(** C1. [extract_features] is a total function of the URL string (the
    [try]/[except] of the parsing step leaves no failing path); the record
    it builds has [url_length] equal to the number of characters of the
    string, each of [digit_ratio], [letter_ratio] and [special_ratio]
    between 0 and 1, and all three equal to 0 for the empty string, whose
    denominator [max(len(url), 1)] is 1. *)
Theorem extract_features_total_and_bounded (url : str) :
  exists features : FeatureRecord,
    extract_features url = features /\
    url_length features = Z.of_nat (length url) /\
    (0 <= digit_ratio features <= 1)%Q /\
    (0 <= letter_ratio features <= 1)%Q /\
    (0 <= special_ratio features <= 1)%Q /\
    (url = [] ->
     Z.max (Str.len url) 1 = 1 /\
     (digit_ratio features == 0)%Q /\
     (letter_ratio features == 0)%Q /\
     (special_ratio features == 0)%Q).
Proof.
  exists (extract_features url). split; [reflexivity|].
  rewrite extract_features_url_length, extract_features_digit_ratio,
    extract_features_letter_ratio, extract_features_special_ratio.
  split; [reflexivity|].
  do 3 (split; [apply ratio_range|]).
  intros ->. split; [reflexivity|].
  split; [|split]; apply truediv_zero.
Qed.

(** C9, amended. When no character outside ASCII is listed both as
    alphabetic and as a digit (as in the Unicode character database, where
    digits are numbers and never letters), the digits, the letters and the
    characters that are not alphanumeric of any URL are at most as many as
    its characters, so the three quotients sum to at most 1 before each is
    rounded to a double. *)
Theorem ratios_sum_at_most_one (url : str) :
  (forall ch, ucd_isalpha ch = true -> ucd_isdigit ch = false) ->
  let features := extract_features url in
  Str.sum_bool Str.isdigit url + Str.sum_bool Str.isalpha url
    + Str.sum_bool (fun ch => negb (Str.isalnum ch)) url <= Str.len url /\
  (digit_ratio features + letter_ratio features + special_ratio features <= 1)%Q.
Proof.
  intros Htable features.
  assert (Hcount :
    Str.sum_bool Str.isdigit url + Str.sum_bool Str.isalpha url
      + Str.sum_bool (fun ch => negb (Str.isalnum ch)) url <= Str.len url).
  { apply sum_bool_exclusive3.
    - intros ch. apply isalpha_not_isdigit. exact Htable.
    - intros ch Hd. rewrite (isdigit_isalnum _ Hd). reflexivity.
    - intros ch Ha. rewrite (isalpha_isalnum _ Ha). reflexivity. }
  split; [exact Hcount|].
  subst features.
  rewrite extract_features_digit_ratio, extract_features_letter_ratio,
    extract_features_special_ratio.
  pose proof (max_len_pos url) as Hpos.
  rewrite !truediv_add by exact Hpos.
  apply truediv_le_1; [|exact Hpos].
  etransitivity; [exact Hcount | apply len_le_max].
Qed.
End extractor.

Lemma extract_features_total_and_bounded_witness :
  let features := @extract_features ascii_tables no_ip_literals [] in
  url_length features = 0 /\ (digit_ratio features == 0)%Q
  /\ (letter_ratio features == 0)%Q /\ (special_ratio features == 0)%Q.
Proof.
  destruct (@extract_features_total_and_bounded ascii_tables no_ip_literals [])
    as (features & <- & Hlen & _ & _ & _ & Hempty).
  destruct (Hempty eq_refl) as (_ & Hd & Hl & Hs).
  exact (conj Hlen (conj Hd (conj Hl Hs))).
Defined.

Lemma ratios_sum_at_most_one_witness :
  (forall ch, @ucd_isalpha ascii_tables ch = true ->
              @ucd_isdigit ascii_tables ch = false) /\
  let features :=
    @extract_features ascii_tables no_ip_literals
      (pystr "cdn123456789.examplehostname") in
  (digit_ratio features + letter_ratio features + special_ratio features <= 1)%Q.
Proof.
  split.
  - intros ch Hch. discriminate Hch.
  - apply (@ratios_sum_at_most_one ascii_tables no_ip_literals
             (pystr "cdn123456789.examplehostname")).
    intros ch Hch. discriminate Hch.
Defined.

(** ** Substrings and splitting *)
Section substrings.
Context `{UnicodeData}.

Lemma startswith_spec (prefix s : str) :
  Str.startswith prefix s = true <-> take (length prefix) s = prefix.
Proof.
  revert s. induction prefix as [|p prefix IH]; intros s; simpl.
  - split; reflexivity.
  - destruct s as [|x s]; simpl.
    + split; discriminate.
    + rewrite andb_true_iff, N.eqb_eq, IH. split.
      * intros [-> ->]. reflexivity.
      * intros Heq. injection Heq as -> Heq. split; [reflexivity | exact Heq].
Qed.

(** [sub in s]: [sub] starts at some index of [s]. *)
Lemma contains_spec (sub s : str) :
  Str.contains sub s = true <->
  exists i : nat, take (length sub) (drop i s) = sub.
Proof.
  induction s as [|x s IH].
  - simpl. rewrite orb_false_r, startswith_spec. split.
    + intros Hs. exists O. exact Hs.
    + intros [i Hi]. rewrite drop_nil in Hi. exact Hi.
  - change (Str.contains sub (x :: s))
      with (Str.startswith sub (x :: s) || Str.contains sub s).
    rewrite orb_true_iff, startswith_spec, IH. split.
    + intros [Hs | [i Hi]]; [exists O; exact Hs | exists (S i); exact Hi].
    + intros [[|i] Hi]; [left; exact Hi | right; exists i; exact Hi].
Qed.

(** A two-character substring: two adjacent positions. *)
Lemma contains_pair (a b : char) (s : str) :
  Str.contains [a; b] s = true <->
  exists i : nat, s !! i = Some a /\ s !! S i = Some b.
Proof.
  rewrite contains_spec. change (length [a; b]) with 2%nat.
  split; intros [i Hi]; exists i.
  - assert (H0 : take 2 (drop i s) !! O = Some a) by (rewrite Hi; reflexivity).
    assert (H1 : take 2 (drop i s) !! 1%nat = Some b) by (rewrite Hi; reflexivity).
    rewrite lookup_take_lt, lookup_drop in H0, H1 by lia.
    rewrite Nat.add_0_r in H0. rewrite Nat.add_1_r in H1. split; assumption.
  - destruct Hi as [Ha Hb].
    assert (Ha' : drop i s !! O = Some a)
      by (rewrite lookup_drop, Nat.add_0_r; exact Ha).
    assert (Hb' : drop i s !! 1%nat = Some b)
      by (rewrite lookup_drop, Nat.add_1_r; exact Hb).
    destruct (drop i s) as [|x [|y l]]; try discriminate.
    injection Ha' as ->. injection Hb' as ->. reflexivity.
Qed.

Lemma split_nonempty (ch : char) (s : str) : Str.split ch s <> [].
Proof.
  destruct s as [|x s]; simpl; [discriminate|].
  destruct (x =? ch)%N; [discriminate|].
  destruct (Str.split ch s); discriminate.
Qed.

(** [split] cuts at every [ch] and nowhere else. *)
Lemma split_join (ch : char) (s : str) : Str.join ch (Str.split ch s) = s.
Proof.
  induction s as [|x s IH]; simpl; [reflexivity|].
  destruct (x =? ch)%N eqn:Hx.
  - apply N.eqb_eq in Hx. subst x.
    pose proof (split_nonempty ch s) as Hne.
    destruct (Str.split ch s) as [|piece pieces]; [contradiction|].
    simpl. rewrite <- IH. reflexivity.
  - pose proof (split_nonempty ch s) as Hne.
    destruct (Str.split ch s) as [|piece pieces]; [contradiction|].
    rewrite <- IH. destruct pieces; reflexivity.
Qed.

Lemma split_pieces (ch : char) (s : str) :
  Forall (fun piece => Str.has_char ch piece = false) (Str.split ch s).
Proof.
  induction s as [|x s IH]; simpl.
  - constructor; [reflexivity | constructor].
  - destruct (x =? ch)%N eqn:Hx.
    + constructor; [reflexivity | exact IH].
    + destruct (Str.split ch s) as [|piece pieces].
      * constructor; [|constructor]. simpl. rewrite N.eqb_sym, Hx. reflexivity.
      * inversion IH as [|? ? Hp Hps]; subst. constructor; [|exact Hps].
        simpl. rewrite N.eqb_sym, Hx. exact Hp.
Qed.

(** One more label than there are separators. *)
Lemma split_length (ch : char) (s : str) :
  Str.len_list (Str.split ch s) = Str.count ch s + 1.
Proof.
  unfold Str.len_list, Str.count, Str.sum_bool.
  induction s as [|x s IH]; simpl; [reflexivity|].
  rewrite (N.eqb_sym ch x).
  destruct (x =? ch)%N; simpl.
  - lia.
  - pose proof (split_nonempty ch s) as Hne.
    destruct (Str.split ch s) as [|piece pieces]; [contradiction|].
    simpl in *. lia.
Qed.
End substrings.

Lemma flag_true (b : bool) : flag b = 1 <-> b = true.
Proof. destruct b; simpl; split; intros; (reflexivity || discriminate). Qed.

Lemma flag_range (b : bool) : (0 <= inject_Z (flag b) <= 1)%Q.
Proof. destruct b; simpl; split; discriminate. Qed.

(** ** The threat scorer *)
Section scorer.
Context `{UnicodeData} `{IpAddress}.

(** What [get_dna_scores] computes, key by key, and that it hands the
    dict back as it got it. *)
Lemma get_dna_scores_unfold (url : str) (features : FeatureRecord) :
  get_dna_scores url features =
  ({| dna_length_risk     := Qmin (truediv (Str.len url) 150) 1;
      dna_special_chars   := Qmin (special_ratio features * 3) 1;
      dna_suspicious_kw   := inject_Z (has_suspicious_word features);
      dna_ip_address      := inject_Z (has_ip features);
      dna_subdomain_depth := Qmin (truediv (Z.max (num_subdomains features) 0) 4) 1;
      dna_digit_density   := Qmin (digit_ratio features * 4) 1;
      dna_hyphen_abuse    := Qmin (truediv (num_hyphens features) 6) 1;
      dna_encoding_tricks := inject_Z (has_hex_encoding features) |},
   features).
Proof. reflexivity. Qed.

Lemma extract_features_flags (url : str) :
  let features := extract_features url in
  has_suspicious_word features
  = flag (existsb (fun w => Str.contains w (Str.lower url)) suspicious_words) /\
  has_ip features = flag (Re.re_search ip_pattern url) /\
  has_hex_encoding features = flag (Str.has_char (chr "%") url) /\
  has_double_slash features = flag (Str.contains (pystr "//") (drop 7 url)) /\
  num_hyphens features = Str.count (chr "-") url.
Proof. unfold extract_features. destruct (parse_step url). repeat split. Qed.

Lemma scaled_ratio_nonneg (x k : Q) : (0 <= x)%Q -> (0 <= k)%Q -> (0 <= x * k)%Q.
Proof. apply Qmult_le_0_compat. Qed.

(** C3. For the record [extract_features] builds from a URL,
    [get_dna_scores] returns eight scores, each between 0 and 1, and
    leaves the record as it was; 'Length Risk' is 1 as soon as the URL
    has 150 characters (so at 10000), and it is the clamp of the
    record's own [url_length] over 150: no score is computed from
    anything but the record's fields. *)
Theorem dna_scores_in_unit_interval (url : str) :
  let features := extract_features url in
  exists dna : ThreatDNA,
    get_dna_scores url features = (dna, features) /\
    (0 <= dna_length_risk dna <= 1)%Q /\
    (0 <= dna_special_chars dna <= 1)%Q /\
    (0 <= dna_suspicious_kw dna <= 1)%Q /\
    (0 <= dna_ip_address dna <= 1)%Q /\
    (0 <= dna_subdomain_depth dna <= 1)%Q /\
    (0 <= dna_digit_density dna <= 1)%Q /\
    (0 <= dna_hyphen_abuse dna <= 1)%Q /\
    (0 <= dna_encoding_tricks dna <= 1)%Q /\
    dna_length_risk dna = Qmin (truediv (url_length features) 150) 1 /\
    (150 <= url_length features -> (dna_length_risk dna == 1)%Q).
Proof.
  intros features. eexists. split; [apply get_dna_scores_unfold|]. simpl.
  destruct (extract_features_flags url) as (Hkw & Hip & Hhex & _ & Hhyph).
  fold features in Hkw, Hip, Hhex, Hhyph.
  rewrite Hkw, Hip, Hhex, Hhyph.
  subst features.
  rewrite extract_features_url_length, extract_features_digit_ratio,
    extract_features_special_ratio.
  split; [|split; [|split; [|split; [|split; [|split; [|split; [|split; [|split]]]]]]]].
  - apply clamp_range, truediv_nonneg; [unfold Str.len|]; lia.
  - apply clamp_range, scaled_ratio_nonneg; [apply ratio_range | discriminate].
  - apply flag_range.
  - apply flag_range.
  - apply clamp_range, truediv_nonneg; lia.
  - apply clamp_range, scaled_ratio_nonneg; [apply ratio_range | discriminate].
  - apply clamp_range, truediv_nonneg; [apply sum_bool_nonneg | lia].
  - apply flag_range.
  - reflexivity.
  - intros Hlong. apply clamp_saturates.
    unfold truediv. apply Qle_shift_div_l; [reflexivity|].
    rewrite Qmult_1_l. rewrite (Zle_Qle 150 (Str.len url)) in Hlong.
    exact Hlong.
Qed.

End scorer.

Lemma dna_scores_in_unit_interval_witness :
  let url := repeat (chr "a") (Z.to_nat 10000) in
  let features := @extract_features ascii_tables no_ip_literals url in
  150 <= url_length features /\
  (dna_length_risk (get_dna_scores url features).1 == 1)%Q.
Proof.
  intros url features.
  destruct (@dna_scores_in_unit_interval ascii_tables no_ip_literals url)
    as (dna & Hrun & _ & _ & _ & _ & _ & _ & _ & _ & _ & Hlong).
  fold features in Hrun, Hlong.
  assert (Hlen : 150 <= url_length features).
  { subst features. rewrite extract_features_url_length. vm_compute. discriminate. }
  split; [exact Hlen|].
  rewrite Hrun. exact (Hlong Hlen).
Defined.

Section subdomains_and_slashes.
Context `{UnicodeData} `{IpAddress}.

Lemma count_absent (ch : char) (s : str) :
  Str.has_char ch s = false -> Str.count ch s = 0.
Proof.
  unfold Str.has_char, Str.count, Str.sum_bool.
  induction s as [|x s IH]; simpl; [reflexivity|].
  intros Hex. apply orb_false_iff in Hex as [-> Hex].
  apply IH. exact Hex.
Qed.

Lemma extract_features_num_subdomains (url : str) :
  num_subdomains (extract_features url) =
  match (parse_step url).1 with
  | _ :: _ => Str.len_list (Str.split (chr ".") (parse_step url).1) - 2
  | [] => 0
  end.
Proof. unfold extract_features. destruct (parse_step url). reflexivity. Qed.

(** C4. [num_subdomains] is 0 for an empty parsed hostname and otherwise
    the number of pieces [hostname.split('.')] gives, one more than the
    hostname has dots, minus 2: it is not clamped and never below -1,
    which it reaches for a hostname without a dot.  'Subdomain Depth' is
    [min(max(num_subdomains, 0) / 4, 1.0)], hence 0 whenever
    [num_subdomains] is negative. *)
Theorem num_subdomains_unclamped_depth_clamped (url : str) :
  let hostname := (parse_step url).1 in
  let features := extract_features url in
  let dna := (get_dna_scores url features).1 in
  (hostname = [] -> num_subdomains features = 0) /\
  (hostname <> [] ->
   num_subdomains features = Z.of_nat (length (Str.split (chr ".") hostname)) - 2 /\
   num_subdomains features = Str.count (chr ".") hostname - 1 /\
   (Str.has_char (chr ".") hostname = false -> num_subdomains features = -1)) /\
  dna_subdomain_depth dna = Qmin (truediv (Z.max (num_subdomains features) 0) 4) 1 /\
  (num_subdomains features < 0 -> (dna_subdomain_depth dna == 0)%Q).
Proof.
  intros hostname features dna.
  pose proof (extract_features_num_subdomains url) as Hns.
  fold features hostname in Hns.
  split; [|split; [|split]].
  - intros Hempty. rewrite Hns, Hempty. reflexivity.
  - intros Hne. destruct hostname as [|x hostname'] eqn:Hhost; [contradiction|].
    rewrite Hns. split; [reflexivity|].
    rewrite split_length. split; [lia|].
    intros Hnodot.
    rewrite (count_absent _ _ Hnodot). reflexivity.
  - reflexivity.
  - intros Hneg. subst dna. rewrite get_dna_scores_unfold. simpl.
    replace (Z.max (num_subdomains features) 0) with 0 by lia.
    reflexivity.
Qed.
End subdomains_and_slashes.

Lemma num_subdomains_unclamped_depth_clamped_witness :
  let url := pystr "localhost" in
  let features := @extract_features ascii_tables no_ip_literals url in
  num_subdomains features = -1 /\
  (dna_subdomain_depth (get_dna_scores url features).1 == 0)%Q.
Proof.
  intros url features.
  destruct (@num_subdomains_unclamped_depth_clamped ascii_tables no_ip_literals url)
    as (_ & Hlabels & _ & Hneg).
  assert (Hhost : (@parse_step ascii_tables no_ip_literals url).1 <> [])
    by (vm_compute; discriminate).
  destruct (Hlabels Hhost) as (_ & _ & Hnodot).
  assert (Hminus : num_subdomains features = -1)
    by (apply Hnodot; vm_compute; reflexivity).
  split; [exact Hminus|].
  apply Hneg. fold features. rewrite Hminus. reflexivity.
Defined.

(** ** Scheme-less inputs *)
Section schemeless.
Context `{UnicodeData} `{IpAddress}.

Lemma forallb_excludes (p : char -> bool) (ch : char) (s : str) :
  forallb p s = true -> p ch = false -> Str.has_char ch s = false.
Proof.
  intros Hall Hch. unfold Str.has_char.
  induction s as [|x s IH]; simpl in *; [reflexivity|].
  apply andb_true_iff in Hall as [Hx Hall].
  rewrite (IH Hall), orb_false_r.
  apply N.eqb_neq. intros ->. congruence.
Qed.

Lemma find_absent (ch : char) (s : str) :
  Str.has_char ch s = false -> Str.find ch s = None.
Proof.
  unfold Str.has_char. induction s as [|x s IH]; simpl; [reflexivity|].
  intros Hex. apply orb_false_iff in Hex as [Hx Hex].
  rewrite N.eqb_sym, Hx, (IH Hex). reflexivity.
Qed.

Lemma rfind_absent (ch : char) (s : str) :
  Str.has_char ch s = false -> Str.rfind ch s = None.
Proof.
  unfold Str.has_char. induction s as [|x s IH]; simpl; [reflexivity|].
  intros Hex. apply orb_false_iff in Hex as [Hx Hex].
  rewrite (IH Hex), N.eqb_sym, Hx. reflexivity.
Qed.

Lemma find_app_absent (ch : char) (s t : str) :
  Str.has_char ch s = false ->
  Str.find ch (s ++ t) = (fun i => (length s + i)%nat) <$> Str.find ch t.
Proof.
  unfold Str.has_char. induction s as [|x s IH]; simpl.
  - intros _. destruct (Str.find ch t); reflexivity.
  - intros Hex. apply orb_false_iff in Hex as [Hx Hex].
    rewrite N.eqb_sym, Hx, (IH Hex).
    destruct (Str.find ch t); reflexivity.
Qed.

Lemma remove_char_absent (ch : char) (s : str) :
  Str.has_char ch s = false -> Str.remove_char ch s = s.
Proof.
  unfold Str.has_char, Str.remove_char.
  induction s as [|x s IH]; simpl; [reflexivity|].
  intros Hex. apply orb_false_iff in Hex as [Hx Hex].
  rewrite N.eqb_sym, Hx. simpl. rewrite (IH Hex). reflexivity.
Qed.

Lemma remove_char_app (ch : char) (s t : str) :
  Str.remove_char ch (s ++ t) = Str.remove_char ch s ++ Str.remove_char ch t.
Proof. apply List.filter_app. Qed.

Lemma remove_unsafe_app (s t : str) :
  forallb host_char s = true ->
  Urllib.remove_unsafe (s ++ t) = s ++ Urllib.remove_unsafe t.
Proof.
  intros Hs. unfold Urllib.remove_unsafe.
  rewrite !remove_char_app.
  rewrite (remove_char_absent 9 s) by (apply (forallb_excludes _ _ _ Hs); reflexivity).
  rewrite (remove_char_absent 13 s) by (apply (forallb_excludes _ _ _ Hs); reflexivity).
  rewrite (remove_char_absent 10 s) by (apply (forallb_excludes _ _ _ Hs); reflexivity).
  reflexivity.
Qed.

Lemma host_char_isascii (s : str) :
  forallb host_char s = true -> Str.isascii s = true.
Proof.
  unfold Str.isascii. induction s as [|x s IH]; simpl; [reflexivity|].
  intros Hall. apply andb_true_iff in Hall as [Hx Hall].
  rewrite (IH Hall), andb_true_r.
  unfold host_char, Str.ascii_lower_letter, Str.ascii_upper_letter,
    Str.ascii_digit, Str.between in Hx.
  unfold Str.isascii_char. apply N.ltb_lt.
  repeat (apply orb_true_iff in Hx as [Hx|Hx]);
    try (apply andb_true_iff in Hx as [_ Hx]; apply N.leb_le in Hx; lia);
    apply N.eqb_eq in Hx; subst x; vm_compute; reflexivity.
Qed.

Lemma find_from_after_slashes (ch : char) (host tail : str) :
  Str.has_char ch host = false ->
  Str.find_from ch 2 (pystr "//" ++ host ++ tail)
  = (fun i => (2 + length host + i)%nat) <$> Str.find ch tail.
Proof.
  intros Habsent. unfold Str.find_from.
  change (drop 2 (pystr "//" ++ host ++ tail)) with (host ++ tail).
  rewrite (find_app_absent _ _ _ Habsent).
  destruct (Str.find ch tail); simpl; [f_equal; lia | reflexivity].
Qed.

Lemma find_cons (ch x : char) (s : str) :
  Str.find ch (x :: s) = if (x =? ch)%N then Some O else S <$> Str.find ch s.
Proof. reflexivity. Qed.

Lemma splitnetloc_host (host tail : str) :
  forallb host_char host = true -> host_ends tail ->
  Urllib._splitnetloc (pystr "//" ++ host ++ tail) 2 = (host, tail).
Proof.
  intros Hhost Hends. unfold Urllib._splitnetloc.
  assert (Hdelim :
    foldl (fun delim ch =>
             match Str.find_from ch 2 (pystr "//" ++ host ++ tail) with
             | Some wdelim => Nat.min delim wdelim
             | None => delim
             end)
          (length (pystr "//" ++ host ++ tail)) [chr "/"; chr "?"; chr "#"]
    = (2 + length host)%nat).
  { cbn [foldl].
    rewrite !find_from_after_slashes
      by (apply (forallb_excludes _ _ _ Hhost); reflexivity).
    rewrite !length_app. change (length (pystr "//")) with 2%nat.
    destruct Hends as [-> | (d & tail' & -> & Hd)].
    - simpl. lia.
    - rewrite !find_cons.
      destruct (Str.find (chr "/") tail'), (Str.find (chr "?") tail'),
        (Str.find (chr "#") tail');
        destruct Hd as [-> | [-> | ->]]; simpl; lia. }
  rewrite Hdelim.
  change (pystr "//" ++ host ++ tail) with (chr "/" :: chr "/" :: host ++ tail).
  change (2 + length host)%nat with (S (S (length host))).
  simpl take. simpl drop.
  rewrite take_app_length, drop_app_length. reflexivity.
Qed.

Lemma host_ends_remove_unsafe (tail : str) :
  host_ends tail -> host_ends (Urllib.remove_unsafe tail).
Proof.
  intros [-> | (d & tail' & -> & Hd)]; [left; reflexivity|].
  right. exists d, (Urllib.remove_unsafe tail').
  split; [|exact Hd].
  destruct Hd as [-> | [-> | ->]]; reflexivity.
Qed.

Lemma urlsplit_schemeless (host tail : str) :
  forallb host_char host = true -> host_ends tail ->
  match Urllib.urlsplit (pystr "http://" ++ host ++ tail) with
  | Some (scheme, netloc, _, _, _) => scheme = pystr "http" /\ netloc = host
  | None => False
  end.
Proof.
  intros Hhost Hends. unfold Urllib.urlsplit.
  change (Str.lstrip_if Urllib.c0_control_or_space (pystr "http://" ++ host ++ tail))
    with (pystr "http://" ++ host ++ tail).
  change (Urllib.remove_unsafe (pystr "http://" ++ host ++ tail))
    with (pystr "http://" ++ Urllib.remove_unsafe (host ++ tail)).
  rewrite (remove_unsafe_app _ _ Hhost).
  apply host_ends_remove_unsafe in Hends.
  set (tail' := Urllib.remove_unsafe tail) in *.
  cbv zeta.
  lazymatch goal with
  | |- match (match ?scheme_and_url with pair _ _ => _ end) with _ => _ end =>
      change scheme_and_url with (pystr "http", pystr "//" ++ host ++ tail')
  end.
  cbv beta iota.
  change (Str.startswith (pystr "//") (pystr "//" ++ host ++ tail')) with true.
  cbv beta iota.
  rewrite (splitnetloc_host _ _ Hhost Hends).
  rewrite (forallb_excludes _ (chr "[") _ Hhost) by reflexivity.
  rewrite (forallb_excludes _ (chr "]") _ Hhost) by reflexivity.
  cbn [andb orb negb].
  unfold Urllib._checknetloc.
  rewrite (host_char_isascii _ Hhost), orb_true_r.
  destruct (Str.has_char (chr "#") tail');
    [destruct (Str.split1 (chr "#") tail') as [url1 fragment] |];
    cbv beta iota.
  - destruct (Str.has_char (chr "?") url1);
      [destruct (Str.split1 (chr "?") url1) |]; split; reflexivity.
  - destruct (Str.has_char (chr "?") tail');
      [destruct (Str.split1 (chr "?") tail') |]; split; reflexivity.
Qed.

Lemma hostname_plain (host : str) (r : Urllib.ParseResult) :
  forallb host_char host = true -> host <> [] -> Urllib.netloc r = host ->
  Urllib.hostname r = Some (Str.lower host).
Proof.
  intros Hhost Hne Hnetloc.
  unfold Urllib.hostname, Urllib._hostinfo. rewrite Hnetloc.
  unfold Str.rpartition.
  rewrite (rfind_absent (chr "@") host)
    by (apply (forallb_excludes _ _ _ Hhost); reflexivity).
  unfold Str.partition.
  rewrite (find_absent (chr "[") host)
    by (apply (forallb_excludes _ _ _ Hhost); reflexivity).
  rewrite (find_absent (chr ":") host)
    by (apply (forallb_excludes _ _ _ Hhost); reflexivity).
  cbn [fst snd].
  destruct host as [|x host']; [contradiction|].
  rewrite (find_absent (chr "%") (x :: host'))
    by (apply (forallb_excludes _ _ _ Hhost); reflexivity).
  rewrite !app_nil_r. reflexivity.
Qed.

(** A plain host name, followed by nothing or by a path, query or
    fragment, comes back lower-cased as the hostname once [http://] has
    been put in front of it. *)
Lemma parse_step_schemeless (host tail : str) :
  host <> [] -> forallb host_char host = true -> host_ends tail ->
  Str.startswith (pystr "http") (host ++ tail) = false ->
  (parse_step (host ++ tail)).1 = Str.lower host /\ Str.lower host <> [].
Proof.
  intros Hne Hhost Hends Hscheme. split.
  - unfold parse_step. rewrite Hscheme.
    pose proof (urlsplit_schemeless host tail Hhost Hends) as Hsplit.
    unfold Urllib.urlparse.
    destruct (Urllib.urlsplit (pystr "http://" ++ host ++ tail))
      as [[[[[scheme netloc] url] query] fragment]|]; [|contradiction].
    destruct Hsplit as [-> ->]. cbn [mbind option_bind].
    destruct (if existsb (Str.eqb (pystr "http")) Urllib.uses_params
                 && Str.has_char (chr ";") url
              then Urllib._splitparams url else (url, [])) as [path params].
    rewrite (hostname_plain host); [reflexivity | assumption..| reflexivity].
  - unfold Str.lower. rewrite (host_char_isascii _ Hhost).
    destruct host; [contradiction | discriminate].
Qed.
End schemeless.

Section original_string.
Context `{UnicodeData} `{IpAddress}.

(** C5. [has_double_slash] is 1 exactly when two adjacent [/] start at
    some index 7 or later of the string [extract_features] was given,
    and 0 otherwise; the indices are those of that string, not of the
    [http://]-prefixed one handed to [urlparse]: [example.com//path] has
    its [//] at index 11 and is flagged, [a.com//x] has it at index 5 and
    is not flagged, although it sits at index 12 of the prefixed string. *)
Theorem has_double_slash_from_index_7 (url : str) :
  let features := extract_features url in
  (has_double_slash features = 1 <->
   exists i : nat, (7 <= i)%nat /\
     url !! i = Some (chr "/") /\ url !! S i = Some (chr "/")) /\
  (has_double_slash features = 0 \/ has_double_slash features = 1) /\
  has_double_slash (extract_features (pystr "example.com//path")) = 1 /\
  has_double_slash (extract_features (pystr "a.com//x")) = 0 /\
  Str.contains (pystr "//") (drop 7 (pystr "http://" ++ pystr "a.com//x")) = true.
Proof.
  intros features.
  destruct (extract_features_flags url) as (_ & _ & _ & Hds & _).
  fold features in Hds. rewrite Hds.
  split; [|split; [|split; [|split]]].
  - rewrite flag_true. change (pystr "//") with [chr "/"; chr "/"].
    rewrite contains_pair. split.
    + intros (i & Ha & Hb). exists (7 + i)%nat.
      rewrite lookup_drop in Ha, Hb.
      rewrite <- Nat.add_succ_r. split; [lia | split; assumption].
    + intros (i & Hi & Ha & Hb). exists (i - 7)%nat.
      rewrite !lookup_drop.
      replace (7 + (i - 7))%nat with i by lia.
      replace (7 + S (i - 7))%nat with (S i) by lia.
      split; assumption.
  - destruct (Str.contains _ _); [right | left]; reflexivity.
  - vm_compute. reflexivity.
  - vm_compute. reflexivity.
  - vm_compute. reflexivity.
Qed.

(** C2. The parsing step hands [urlparse] the URL itself when it starts
    with [http] and [http://] followed by the URL otherwise.  When
    [urlparse] raises, the step yields an empty hostname and the original
    URL as path; when it returns, the step yields the parsed hostname
    (empty for [None]) and the parsed path.  Either way the step returns.
    A URL without scheme that begins with a plain host name (letters,
    digits, [-], [.]) ending the string or followed by a path, query or
    fragment gets that name, lower-cased, as its non-empty hostname:
    [example.com/page] gets [example.com] and the path [/page]. *)
Theorem parse_step_prefix_and_fallback (url : str) :
  let target :=
    if Str.startswith (pystr "http") url then url else pystr "http://" ++ url in
  (Str.startswith (pystr "http") url = false -> target = pystr "http://" ++ url) /\
  (Str.startswith (pystr "http") url = true -> target = url) /\
  (Urllib.urlparse target = None -> parse_step url = ([], url)) /\
  (forall parsed, Urllib.urlparse target = Some parsed ->
     parse_step url = (default [] (Urllib.hostname parsed), Urllib.path parsed)) /\
  (exists hostname path, parse_step url = (hostname, path)) /\
  (forall host tail,
     url = host ++ tail -> host <> [] -> forallb host_char host = true ->
     host_ends tail -> Str.startswith (pystr "http") url = false ->
     (parse_step url).1 = Str.lower host /\ (parse_step url).1 <> []) /\
  parse_step (pystr "example.com/page") = (pystr "example.com", pystr "/page").
Proof.
  intros target. subst target.
  split; [|split; [|split; [|split; [|split; [|split]]]]].
  - intros ->. reflexivity.
  - intros ->. reflexivity.
  - unfold parse_step. intros ->. reflexivity.
  - unfold parse_step. intros parsed ->. reflexivity.
  - unfold parse_step. destruct (Urllib.urlparse _); eexists _, _; reflexivity.
  - intros host tail -> Hne Hhost Hends Hscheme.
    destruct (parse_step_schemeless host tail Hne Hhost Hends Hscheme) as [Heq Hlow].
    rewrite Heq. split; [reflexivity | exact Hlow].
  - vm_compute. reflexivity.
Qed.

(** C8. The three test vectors: the empty string; a URL with [https],
    [www.], three of the suspicious words, one hyphen, one [=] and one
    [?]; a bare IPv4-shaped host with the suspicious word [admin]. *)
Theorem extract_features_test_vectors :
  let empty := extract_features (pystr "") in
  let paypal := extract_features (pystr "https://www.paypal-login.com/secure?x=1") in
  let admin := extract_features (pystr "192.168.1.1/admin") in
  (url_length empty = 0 /\
   (digit_ratio empty == 0)%Q /\ (letter_ratio empty == 0)%Q /\
   (special_ratio empty == 0)%Q /\
   has_ip empty = 0 /\ has_https empty = 0 /\ num_subdomains empty = 0) /\
  (has_https paypal = 1 /\ has_www paypal = 1 /\ has_suspicious_word paypal = 1 /\
   num_hyphens paypal = 1 /\ num_equals paypal = 1 /\ num_question paypal = 1) /\
  (has_ip admin = 1 /\ has_suspicious_word admin = 1).
Proof. vm_compute. repeat split. Qed.
End original_string.

Lemma has_double_slash_from_index_7_witness :
  let url := pystr "http://a.com/x//y" in
  (exists i : nat, (7 <= i)%nat /\
     url !! i = Some (chr "/") /\ url !! S i = Some (chr "/")) /\
  has_double_slash (@extract_features ascii_tables no_ip_literals url) = 1.
Proof.
  intros url.
  assert (Hex : exists i : nat, (7 <= i)%nat /\
            url !! i = Some (chr "/") /\ url !! S i = Some (chr "/")).
  { exists 14%nat. split; [lia | split; reflexivity]. }
  split; [exact Hex|].
  apply (proj1 (@has_double_slash_from_index_7 ascii_tables no_ip_literals url)).
  exact Hex.
Defined.

Lemma parse_step_prefix_and_fallback_witness :
  (let url := pystr "http://[::1/x" in
   @Urllib.urlparse ascii_tables no_ip_literals url = None /\
   @parse_step ascii_tables no_ip_literals url = ([], url)) /\
  (let url := pystr "Example.COM/page" in
   Str.startswith (pystr "http") url = false /\
   (@parse_step ascii_tables no_ip_literals url).1 = pystr "example.com").
Proof.
  split.
  - intros url.
    assert (Hraise : @Urllib.urlparse ascii_tables no_ip_literals url = None)
      by (vm_compute; reflexivity).
    split; [exact Hraise|].
    destruct (@parse_step_prefix_and_fallback ascii_tables no_ip_literals url)
      as (_ & _ & Hfallback & _).
    apply Hfallback. exact Hraise.
  - intros url. split; [reflexivity|].
    destruct (@parse_step_prefix_and_fallback ascii_tables no_ip_literals url)
      as (_ & _ & _ & _ & _ & Hplain & _).
    destruct (Hplain (pystr "Example.COM") (pystr "/page")) as [Hhost _].
    + reflexivity.
    + discriminate.
    + reflexivity.
    + right. exists (chr "/"), (pystr "page"). split; [reflexivity | left; reflexivity].
    + reflexivity.
    + exact Hhost.
Defined.

(** ** The request handlers *)
Section handler_facts.
Context `{UnicodeData} `{IpAddress} `{Classifier}.

Lemma eqb_eq (a b : str) : Str.eqb a b = true <-> a = b.
Proof.
  revert b. induction a as [|x a IH]; intros [|y b]; simpl;
    try (split; (reflexivity || discriminate)).
  rewrite andb_true_iff, N.eqb_eq, IH. split.
  - intros [-> ->]. reflexivity.
  - intros Heq. injection Heq as -> ->. split; reflexivity.
Qed.

(** A URL that survives [strip] costs the four calls and gives a
    response unless the classifier raises. *)
Lemma predict_unfold (data_url : option str) :
  predict data_url =
  match Str.strip (default [] data_url) with
  | [] => (Returned (ErrorResponse "No URL provided" 400), [])
  | (_ :: _) as url =>
      let features := extract_features url in
      (match le_inverse_transform (model_predict features),
             confidence_of (model_predict_proba features) with
       | Some predicted_class, Some confidence =>
           Returned (PredictResponse url predicted_class
                       (prob_dict (model_predict_proba features))
                       (get_dna_scores url features).1 confidence)
       | _, _ => Raised
       end, calls_for url)
  end.
Proof.
  unfold predict. destruct (Str.strip (default [] data_url)) as [|x url]; [reflexivity|].
  unfold calls_for, bind, traced, ret, raise. simpl.
  destruct (le_inverse_transform _); [|reflexivity].
  destruct (confidence_of _); reflexivity.
Qed.

Lemma bulk_step_unfold (results : list result) (url : str) :
  bulk_step results url =
  match Str.strip url with
  | [] => (Returned results, [])
  | (_ :: _) as url' =>
      (match classify url' with
       | Some r => Returned (results ++ [r])
       | None => Raised
       end, calls_for url')
  end.
Proof.
  unfold bulk_step. destruct (Str.strip url) as [|x url']; [reflexivity|].
  unfold classify, calls_for, bind, traced, ret, raise. simpl.
  destruct (le_inverse_transform _); [|reflexivity].
  destruct (confidence_of _); reflexivity.
Qed.

Lemma surviving_cons (url : str) (urls : list str) :
  surviving (url :: urls) =
  match Str.strip url with
  | [] => surviving urls
  | (_ :: _) as url' => url' :: surviving urls
  end.
Proof. unfold surviving. simpl. destruct (Str.strip url); reflexivity. Qed.

(** The loop either appends one result per surviving URL, in order, and
    makes exactly their calls, or stops at a URL the classifier raises
    on. *)
Lemma bulk_loop_cases (urls : list str) (results : list result) :
  (exists new,
      Forall2 (fun url r => classify url = Some r) (surviving urls) new /\
      bulk_loop urls results
      = (Returned (results ++ new), flat_map calls_for (surviving urls)))
  \/ (exists url trace,
         url ∈ surviving urls /\ classify url = None /\
         bulk_loop urls results = (Raised, trace)).
Proof.
  revert results. induction urls as [|url urls IH]; intros results.
  - left. exists []. split; [constructor|]. simpl. unfold ret.
    rewrite app_nil_r. reflexivity.
  - simpl bulk_loop. rewrite bulk_step_unfold, surviving_cons.
    destruct (Str.strip url) as [|x url'] eqn:Hstrip.
    + unfold bind; cbv beta.
      destruct (IH results) as [(new & Hall & Hrun) | (u & trace & Hin & Hnone & Hrun)].
      * left. exists new. split; [exact Hall|]. rewrite Hrun. reflexivity.
      * right. exists u, trace. rewrite Hrun. repeat split; assumption.
    + unfold bind. destruct (classify (x :: url')) as [r|] eqn:Hr.
      *
        destruct (IH (results ++ [r]))
          as [(new & Hall & Hrun) | (u & trace & Hin & Hnone & Hrun)].
        -- left. exists (r :: new). split; [constructor; assumption|].
           rewrite Hrun, <- app_assoc. reflexivity.
        -- right. exists u, (calls_for (x :: url') ++ trace). rewrite Hrun.
           split; [right; exact Hin | split; [exact Hnone | reflexivity]].
      * right. exists (x :: url'), (calls_for (x :: url')).
        split; [left | split; [exact Hr | reflexivity]].
Qed.

Lemma classify_answers (url : str) :
  classifier_answers -> exists r, classify url = Some r.
Proof.
  intros Hok. unfold classify.
  destruct (Hok (extract_features url)) as [[Hlo Hhi] Hprobs].
  unfold le_inverse_transform.
  destruct (0 <=? model_predict (extract_features url)) eqn:Hsign; [|lia].
  destruct (lookup_lt_is_Some_2 le_classes
              (Z.to_nat (model_predict (extract_features url)))) as [label Hlabel];
    [lia|].
  rewrite Hlabel. simpl.
  unfold confidence_of, max_seq.
  destruct (model_predict_proba (extract_features url)); [contradiction|].
  simpl. eexists. reflexivity.
Qed.

Lemma classify_url (url : str) (r : result) :
  classify url = Some r -> r_url r = url /\ r_prediction r ∈ le_classes.
Proof.
  unfold classify, le_inverse_transform. intros Hr.
  destruct (0 <=? _); [|discriminate].
  destruct (le_classes !! _) as [label|] eqn:Hlabel; [|discriminate].
  simpl in Hr. destruct (confidence_of _); [|discriminate].
  injection Hr as <-. simpl. split; [reflexivity|].
  eapply list_elem_of_lookup_2. exact Hlabel.
Qed.
End handler_facts.

(** ** Dicts keyed by labels *)
Section summaries.
Context `{UnicodeData} `{IpAddress} `{Classifier}.

(** A dict comprehension over a list of keys: every listed key is bound
    to its value, no other key is added. *)
Lemma comprehension_lookup (f : str -> Z) (keys : list str)
      (d : gmap str Z) (k : str) :
  foldl (fun d c => <[c := f c]> d) d keys !! k
  = if decide (k ∈ keys) then Some (f k) else d !! k.
Proof.
  revert d. induction keys as [|c keys IH]; intros d; simpl.
  - destruct (decide (k ∈ [])) as [Hin|_]; [|reflexivity].
    apply elem_of_nil in Hin. contradiction.
  - rewrite IH. destruct (decide (k ∈ keys)) as [Hin|Hnotin].
    + rewrite decide_True by (right; exact Hin). reflexivity.
    + destruct (decide (c = k)) as [->|Hne].
      * rewrite decide_True by left. apply lookup_insert_eq.
      * rewrite lookup_insert_ne by exact Hne.
        rewrite decide_False; [reflexivity|].
        intros Hin. apply elem_of_cons in Hin as [->|Hin]; contradiction.
Qed.

Lemma summary_lookup (results : list result) (c : str) :
  summary_of results !! c
  = if decide (c ∈ le_classes) then Some (tally results c) else None.
Proof. unfold summary_of. rewrite comprehension_lookup. reflexivity. Qed.

Lemma tally_cons (r : result) (results : list result) (c : str) :
  tally (r :: results) c
  = tally results c + (if decide (r_prediction r = c) then 1 else 0).
Proof.
  unfold tally. simpl.
  destruct (Str.eqb (r_prediction r) c) eqn:Heq.
  - apply eqb_eq in Heq. rewrite decide_True by exact Heq. simpl length. lia.
  - rewrite decide_False; [lia|].
    intros Hc. apply eqb_eq in Hc. congruence.
Qed.

(** The tally is the number of results predicted as that label. *)
Lemma tally_spec (results : list result) (c : str) :
  tally results c
  = Z.of_nat (length (filter (fun r => r_prediction r = c) results)).
Proof.
  induction results as [|r results IH]; [reflexivity|].
  rewrite tally_cons, IH, filter_cons.
  destruct (decide (r_prediction r = c)); simpl length; lia.
Qed.

Lemma sum_values_comm (d : gmap str Z) :
  forall (j1 j2 : str) (z1 z2 y : Z),
    j1 <> j2 -> d !! j1 = Some z1 -> d !! j2 = Some z2 ->
    z1 + (z2 + y) = z2 + (z1 + y).
Proof. intros. lia. Qed.

Lemma sum_values_insert_fresh (d : gmap str Z) (k : str) (v : Z) :
  d !! k = None -> sum_values (<[k := v]> d) = v + sum_values d.
Proof.
  intros Hfresh. unfold sum_values.
  apply (map_fold_insert_L (fun _ v acc => v + acc)); [|exact Hfresh].
  apply sum_values_comm.
Qed.

(** Overwriting a bound key changes the sum by the difference. *)
Lemma sum_values_insert (d : gmap str Z) (k : str) (v v' : Z) :
  d !! k = Some v -> sum_values (<[k := v']> d) = sum_values d - v + v'.
Proof.
  intros Hbound.
  rewrite <- (insert_delete_eq d k v').
  rewrite sum_values_insert_fresh by apply lookup_delete_eq.
  rewrite <- (insert_id d k v Hbound) at 2.
  rewrite <- (insert_delete_eq d k v).
  rewrite sum_values_insert_fresh by apply lookup_delete_eq.
  lia.
Qed.

Lemma sum_values_zero (d : gmap str Z) :
  (forall k v, d !! k = Some v -> v = 0) -> sum_values d = 0.
Proof.
  induction d as [|k v d Hfresh IH] using map_ind; intros Hzero.
  - reflexivity.
  - rewrite sum_values_insert_fresh by exact Hfresh.
    rewrite (Hzero k v) by apply lookup_insert_eq.
    rewrite IH; [reflexivity|].
    intros k' v' Hk'. apply (Hzero k').
    rewrite lookup_insert_ne; [exact Hk'|].
    intros ->. rewrite Hfresh in Hk'. discriminate.
Qed.

Lemma summary_cons (r : result) (results : list result) :
  r_prediction r ∈ le_classes ->
  summary_of (r :: results)
  = <[r_prediction r := tally results (r_prediction r) + 1]> (summary_of results).
Proof.
  intros Hin. apply map_eq. intros c.
  rewrite summary_lookup, tally_cons.
  destruct (decide (r_prediction r = c)) as [<-|Hne].
  - rewrite lookup_insert_eq, decide_True by exact Hin. reflexivity.
  - rewrite lookup_insert_ne by exact Hne.
    rewrite summary_lookup, Z.add_0_r. reflexivity.
Qed.

(** Every result whose label is known lands in exactly one bucket. *)
Lemma summary_sum (results : list result) :
  Forall (fun r => r_prediction r ∈ le_classes) results ->
  sum_values (summary_of results) = Z.of_nat (length results).
Proof.
  induction 1 as [|r results Hin Hall IH].
  - apply sum_values_zero. intros k v. rewrite summary_lookup.
    destruct (decide (k ∈ le_classes)); [|discriminate].
    intros Hv. injection Hv as <-. reflexivity.
  - rewrite (summary_cons _ _ Hin).
    rewrite (sum_values_insert _ _ (tally results (r_prediction r))).
    + rewrite IH. simpl length. lia.
    + rewrite summary_lookup, decide_True by exact Hin. reflexivity.
Qed.

Lemma sum_list_indicator (p : str) (labels : list str) :
  NoDup labels -> p ∈ labels ->
  sum_list ((fun c => if decide (p = c) then 1 else 0) <$> labels) = 1.
Proof.
  induction 1 as [|c labels Hnotin Hnodup IH]; intros Hin.
  - apply elem_of_nil in Hin. contradiction.
  - cbn [fmap list_fmap sum_list foldr].
    destruct (decide (p = c)) as [->|Hne].
    + assert (Hzero : forall l : list str, c ∉ l ->
                sum_list ((fun c' => if decide (c = c') then 1 else 0) <$> l) = 0).
      { clear. induction l as [|x l IHl]; intros Hx; [reflexivity|].
        cbn [fmap list_fmap sum_list foldr].
        rewrite decide_False by (intros ->; apply Hx; left).
        fold (sum_list ((fun c' => if decide (c = c') then 1 else 0) <$> l)).
        rewrite IHl; [reflexivity|]. intros Hl. apply Hx. right. exact Hl. }
      fold (sum_list ((fun c' => if decide (c = c') then 1 else 0) <$> labels)).
      rewrite (Hzero _ Hnotin). reflexivity.
    + fold (sum_list ((fun c' => if decide (p = c') then 1 else 0) <$> labels)).
      rewrite IH; [reflexivity|].
      apply elem_of_cons in Hin as [Heq|Hin]; [contradiction | exact Hin].
Qed.

Lemma sum_list_add (f g : str -> Z) (labels : list str) :
  sum_list ((fun c => f c + g c) <$> labels)
  = sum_list (f <$> labels) + sum_list (g <$> labels).
Proof.
  induction labels as [|c labels IH]; [reflexivity|].
  cbn [fmap list_fmap sum_list foldr].
  fold (sum_list ((fun c => f c + g c) <$> labels)).
  fold (sum_list (f <$> labels)). fold (sum_list (g <$> labels)).
  rewrite IH. lia.
Qed.

(** With distinct labels, the tallies listed label by label add up to the
    number of results. *)
Lemma tallies_sum (results : list result) :
  NoDup le_classes ->
  Forall (fun r => r_prediction r ∈ le_classes) results ->
  sum_list (tally results <$> le_classes) = Z.of_nat (length results).
Proof.
  intros Hnodup. induction 1 as [|r results Hin Hall IH].
  - induction le_classes as [|c labels IHl]; [reflexivity|].
    cbn [fmap list_fmap sum_list foldr].
    fold (sum_list (tally [] <$> labels)).
    rewrite IHl; [reflexivity|]. inversion Hnodup; assumption.
  - erewrite (list_fmap_ext (tally (r :: results))); [|intros; apply tally_cons].
    rewrite sum_list_add, IH, (sum_list_indicator _ _ Hnodup Hin).
    simpl length. lia.
Qed.
End summaries.

Section endpoints.
Context `{UnicodeData} `{IpAddress} `{Classifier}.

Lemma blank_url (data_url : option str) :
  Str.strip (default [] data_url) = [] <->
  (data_url = None \/ exists url, data_url = Some url /\ Str.strip url = []).
Proof.
  destruct data_url as [url|]; simpl.
  - split.
    + intros Hblank. right. exists url. split; [reflexivity | exact Hblank].
    + intros [Hnone | (url' & Hsome & Hblank)]; [discriminate|].
      injection Hsome as ->. exact Hblank.
  - split; [left; reflexivity | reflexivity].
Qed.

Lemma tally_absent (results : list result) (c : str) :
  (forall r, r ∈ results -> r_prediction r <> c) -> tally results c = 0.
Proof.
  induction results as [|r results IH]; intros Hnone; [reflexivity|].
  rewrite tally_cons, IH.
  - rewrite decide_False; [reflexivity|]. apply Hnone. left.
  - intros r' Hr'. apply Hnone. right. exact Hr'.
Qed.

Lemma bulk_unfold (data_urls : option (list str)) :
  bulk data_urls =
  match default [] data_urls with
  | [] => (Returned (ErrorResponse "No URLs provided" 400), [])
  | url :: urls =>
      if (500 <? Z.of_nat (length (url :: urls)))
      then (Returned (ErrorResponse "Max 500 URLs per batch" 400), [])
      else match bulk_loop (url :: urls) [] with
           | (Returned results, trace) =>
               (Returned (BulkResponse results (summary_of results)
                            (Z.of_nat (length results))), trace)
           | (Raised, trace) => (Raised, trace)
           end
  end.
Proof.
  unfold bulk. destruct (default [] data_urls) as [|url urls]; [reflexivity|].
  destruct (500 <? _); [reflexivity|].
  unfold bind, ret.
  destruct (bulk_loop (url :: urls) []) as [[results|] trace]; [|reflexivity].
  rewrite app_nil_r. reflexivity.
Qed.

(** A valid batch, answered by the classifier, returns one result per
    surviving URL and makes exactly their calls. *)
Lemma bulk_valid_batch (urls : list str) :
  classifier_answers -> urls <> [] -> (length urls <= 500)%nat ->
  exists results,
    bulk (Some urls)
    = (Returned (BulkResponse results (summary_of results)
                   (Z.of_nat (length results))),
       flat_map calls_for (surviving urls)) /\
    Forall2 (fun url r => classify url = Some r) (surviving urls) results.
Proof.
  intros Hok Hne Hsize. rewrite bulk_unfold.
  destruct urls as [|url urls]; [contradiction|].
  change (default [] (Some (url :: urls))) with (url :: urls). cbv beta iota.
  destruct (500 <? Z.of_nat (length (url :: urls))) eqn:Hbig; [apply Z.ltb_lt in Hbig; lia|].
  destruct (bulk_loop_cases (url :: urls) [])
    as [(new & Hall & Hrun) | (u & trace & _ & Hnone & _)].
  - exists new. rewrite Hrun. split; [reflexivity | exact Hall].
  - destruct (classify_answers u Hok) as [r Hr]. congruence.
Qed.

Lemma bulk_returned (data_urls : option (list str)) (results : list result)
      (summary : gmap str Z) (total : Z) (trace : list call) :
  bulk data_urls = (Returned (BulkResponse results summary total), trace) ->
  summary = summary_of results /\ total = Z.of_nat (length results) /\
  Forall2 (fun url r => classify url = Some r)
          (surviving (default [] data_urls)) results.
Proof.
  rewrite bulk_unfold.
  destruct (default [] data_urls) as [|url urls]; [discriminate|].
  destruct (500 <? _); [discriminate|].
  destruct (bulk_loop_cases (url :: urls) [])
    as [(new & Hall & Hrun) | (u & trace' & _ & _ & Hrun)]; rewrite Hrun.
  - simpl app. intros Heq. injection Heq as <- <- <- <-.
    repeat split. exact Hall.
  - discriminate.
Qed.

(** C6. [predict] answers 400 'No URL provided' exactly when the [url]
    key is missing or its value strips to the empty string, and [bulk]
    answers 400 'No URLs provided' for a missing or empty [urls] and 400
    'Max 500 URLs per batch' for more than 500 entries; each of these
    answers is given before anything is extracted or classified (no call
    is made), and a URL that is not blank does cost its four calls. *)
Theorem request_validation :
  (forall data_url,
     (exists r trace, predict data_url = (Returned r, trace) /\ InvalidInput r)
     <-> (data_url = None \/
          exists url, data_url = Some url /\ Str.strip url = [])) /\
  (forall data_url,
     (data_url = None \/ exists url, data_url = Some url /\ Str.strip url = []) ->
     predict data_url = (Returned (ErrorResponse "No URL provided" 400), [])) /\
  (forall url, Str.strip url <> [] ->
     (predict (Some url)).2 = calls_for (Str.strip url)) /\
  (forall data_urls,
     data_urls = None \/ data_urls = Some [] ->
     exists r, bulk data_urls = (Returned r, []) /\ InvalidInput r) /\
  (forall urls,
     (500 < length urls)%nat ->
     exists r, bulk (Some urls) = (Returned r, []) /\ BatchTooLarge r) /\
  (forall urls r trace,
     urls <> [] -> (length urls <= 500)%nat ->
     bulk (Some urls) = (Returned r, trace) ->
     ~ InvalidInput r /\ ~ BatchTooLarge r).
Proof.
  split; [|split; [|split; [|split; [|split]]]].
  - intros data_url. rewrite <- blank_url, predict_unfold.
    destruct (Str.strip (default [] data_url)) as [|x url]; split.
    + reflexivity.
    + intros _. eexists _, _. split; [reflexivity | left; reflexivity].
    + intros (r & trace & Hrun & Hinvalid). exfalso.
      cbv zeta in Hrun.
      destruct (le_inverse_transform _); [|discriminate].
      destruct (confidence_of _); [|discriminate].
      injection Hrun as <- _. destruct Hinvalid; discriminate.
    + discriminate.
  - intros data_url Hblank. apply blank_url in Hblank.
    rewrite predict_unfold, Hblank. reflexivity.
  - intros url Hurl. rewrite predict_unfold. simpl default.
    destruct (Str.strip url); [contradiction | reflexivity].
  - intros data_urls [-> | ->]; eexists; (split; [reflexivity | right; reflexivity]).
  - intros urls Hbig. rewrite bulk_unfold.
    destruct urls as [|url urls]; [simpl in Hbig; lia|].
    change (default [] (Some (url :: urls))) with (url :: urls). cbv beta iota.
    destruct (500 <? Z.of_nat (length (url :: urls))) eqn:Hcmp.
    + eexists. split; reflexivity.
    + apply Z.ltb_ge in Hcmp. lia.
  - intros urls r trace Hne Hsize. rewrite bulk_unfold.
    destruct urls as [|url urls]; [contradiction|].
    change (default [] (Some (url :: urls))) with (url :: urls). cbv beta iota.
    destruct (500 <? Z.of_nat (length (url :: urls))) eqn:Hcmp;
      [apply Z.ltb_lt in Hcmp; lia|].
    destruct (bulk_loop (url :: urls) []) as [[results|] trace']; [|discriminate].
    intros Hrun. injection Hrun as <- _.
    split; [intros [Hr | Hr] | intros Hr]; discriminate Hr.
Qed.

(** C7. For a batch of 1 to 500 entries that the classifier answers,
    [bulk] returns: entries that strip to the empty string give no result,
    no call and no error; every other entry gives exactly one result, the
    one it would give alone, in input order; [total] is the number of
    results; [summary] binds every label of [le.classes_], and no other
    key, to the number of results predicted as that label, 0 for a label
    no result has.  The batch of an empty string, two spaces and
    [http://a.com] has [total] 1. *)
Theorem bulk_results_and_summary (urls : list str) :
  classifier_answers -> urls <> [] -> (length urls <= 500)%nat ->
  (exists results summary total,
     bulk (Some urls)
     = (Returned (BulkResponse results summary total),
        flat_map calls_for (surviving urls)) /\
     Forall2 (fun url r => classify url = Some r /\ r_url r = url)
             (surviving urls) results /\
     total = Z.of_nat (length results) /\
     (forall c, c ∈ le_classes ->
        summary !! c
        = Some (Z.of_nat (length (filter (fun r => r_prediction r = c) results)))) /\
     (forall c, c ∈ le_classes ->
        (forall r, r ∈ results -> r_prediction r <> c) -> summary !! c = Some 0) /\
     (forall c, c ∉ le_classes -> summary !! c = None)) /\
  (forall url urls', Str.strip url = [] -> surviving (url :: urls') = surviving urls') /\
  (exists results summary trace,
     bulk (Some [pystr ""; pystr "  "; pystr "http://a.com"])
     = (Returned (BulkResponse results summary 1), trace) /\
     List.map r_url results = [pystr "http://a.com"]).
Proof.
  intros Hok Hne Hsize. split; [|split].
  - destruct (bulk_valid_batch urls Hok Hne Hsize) as (results & Hrun & Hall).
    exists results, (summary_of results), (Z.of_nat (length results)).
    split; [exact Hrun|]. split; [|split; [reflexivity|split; [|split]]].
    + eapply Forall2_impl; [exact Hall|].
      intros url r Hr. split; [exact Hr|]. apply (classify_url _ _ Hr).
    + intros c Hc. rewrite summary_lookup, decide_True by exact Hc.
      rewrite tally_spec. reflexivity.
    + intros c Hc Hnone. rewrite summary_lookup, decide_True by exact Hc.
      rewrite (tally_absent _ _ Hnone). reflexivity.
    + intros c Hc. rewrite summary_lookup, decide_False by exact Hc. reflexivity.
  - intros url urls' Hblank. rewrite surviving_cons, Hblank. reflexivity.
  - destruct (bulk_valid_batch [pystr ""; pystr "  "; pystr "http://a.com"] Hok)
      as (results & Hrun & Hall); [discriminate | simpl; lia |].
    change (surviving [pystr ""; pystr "  "; pystr "http://a.com"])
      with [pystr "http://a.com"] in Hall.
    inversion Hall as [|? r ? rs Hr Hrest]; subst.
    inversion Hrest; subst.
    exists [r], (summary_of [r]), (flat_map calls_for
      (surviving [pystr ""; pystr "  "; pystr "http://a.com"])).
    split; [exact Hrun|].
    simpl. rewrite (proj1 (classify_url _ _ Hr)). reflexivity.
Qed.

(** C10. In every response [bulk] returns, the label of each result is
    one of [le.classes_], and the counts of [summary] add up to [total],
    the number of results: each result is counted under exactly one
    label.  The sum is that of the dict's values; when [le.classes_] lists
    no label twice it is also the sum of [summary[c]] over its labels. *)
Theorem bulk_summary_adds_up (data_urls : option (list str))
        (results : list result) (summary : gmap str Z) (total : Z)
        (trace : list call) :
  bulk data_urls = (Returned (BulkResponse results summary total), trace) ->
  Forall (fun r => r_prediction r ∈ le_classes) results /\
  sum_values summary = total /\
  total = Z.of_nat (length results) /\
  (NoDup le_classes ->
   sum_list ((fun c => default 0 (summary !! c)) <$> le_classes) = total).
Proof.
  intros Hrun. apply bulk_returned in Hrun as (-> & -> & Hall).
  assert (Hlabels : Forall (fun r => r_prediction r ∈ le_classes) results).
  { clear -Hall. induction Hall as [|url r urls results Hr _ IH]; constructor.
    - apply (classify_url _ _ Hr).
    - exact IH. }
  split; [exact Hlabels|]. split; [|split; [reflexivity|]].
  - apply summary_sum. exact Hlabels.
  - intros Hnodup. rewrite <- (tallies_sum results Hnodup Hlabels).
    f_equal. apply list_fmap_ext. intros i c Hc.
    rewrite summary_lookup, decide_True; [reflexivity|].
    eapply list_elem_of_lookup_2. exact Hc.
Qed.
End endpoints.

(** ** The theorems on the fixtures *)

Lemma two_class_classifier_answers :
  @classifier_answers two_class_classifier.
Proof.
  intros features. simpl.
  destruct (has_ip features =? 1); split; (lia || discriminate).
Qed.

Lemma request_validation_witness :
  @predict ascii_tables no_ip_literals two_class_classifier (Some (pystr "  "))
  = (Returned (ErrorResponse "No URL provided" 400), []) /\
  exists r,
    @bulk ascii_tables no_ip_literals two_class_classifier
      (Some (repeat (pystr "http://a.com") 501)) = (Returned r, []) /\
    BatchTooLarge r.
Proof.
  destruct (@request_validation ascii_tables no_ip_literals two_class_classifier)
    as (_ & Hblank & _ & _ & Hbig & _).
  split.
  - apply Hblank. right. exists (pystr "  "). split; reflexivity.
  - apply Hbig. rewrite repeat_length. lia.
Defined.

Lemma bulk_results_and_summary_witness :
  let urls := [pystr ""; pystr "  "; pystr "http://a.com"] in
  @classifier_answers two_class_classifier /\ urls <> [] /\
  (length urls <= 500)%nat /\
  exists results summary trace,
    @bulk ascii_tables no_ip_literals two_class_classifier (Some urls)
    = (Returned (BulkResponse results summary 1), trace) /\
    List.map r_url results = [pystr "http://a.com"].
Proof.
  intros urls.
  assert (Hne : urls <> []) by discriminate.
  assert (Hsize : (length urls <= 500)%nat) by (simpl; lia).
  split; [exact two_class_classifier_answers|].
  split; [exact Hne|]. split; [exact Hsize|].
  exact (proj2 (proj2 (@bulk_results_and_summary ascii_tables no_ip_literals
                         two_class_classifier urls
                         two_class_classifier_answers Hne Hsize))).
Defined.

Lemma bulk_summary_adds_up_witness :
  let urls := [pystr "http://a.com"; pystr " "; pystr "192.168.1.1/admin"] in
  exists results summary total trace,
    @bulk ascii_tables no_ip_literals two_class_classifier (Some urls)
    = (Returned (BulkResponse results summary total), trace) /\
    sum_values summary = total /\ total = 2.
Proof.
  intros urls.
  destruct (@bulk_valid_batch ascii_tables no_ip_literals two_class_classifier urls
              two_class_classifier_answers)
    as (results & Hrun & Hall); [discriminate | simpl; lia |].
  exists results, (@summary_of two_class_classifier results),
    (Z.of_nat (length results)),
    (flat_map (@calls_for ascii_tables no_ip_literals two_class_classifier)
       (@surviving ascii_tables urls)).
  split; [exact Hrun|].
  destruct (@bulk_summary_adds_up ascii_tables no_ip_literals two_class_classifier
              _ _ _ _ _ Hrun) as (_ & Hsum & _ & _).
  split; [exact Hsum|].
  apply Forall2_length in Hall. rewrite <- Hall. reflexivity.
Defined.

(** ** Rounding *)

(** C9, as stated, fails once the ratios are the doubles Python stores:
    each quotient is rounded on its own, and for the 28-character URL
    below (9 digits, 18 letters, 1 other character) Python's
    [digit_ratio + letter_ratio + special_ratio] is 1.0000000000000002,
    which is not [<= 1]. *)
Lemma ratios_sum_exceeds_one_in_doubles :
  let features :=
    @extract_features ascii_tables no_ip_literals
      (pystr "cdn123456789.examplehostname") in
  (num_digits features = 9 /\ url_length features = 28) /\
  (double (digit_ratio features) + double (letter_ratio features)
   + double (special_ratio features) <=? 1)%float = false.
Proof. vm_compute. split; [split|]; reflexivity. Qed.

(** * Further properties *)

(** ** The pattern matcher *)
Section matcher.

Lemma exactly_spec (p : char -> bool) (n : nat) (s : str) (k : str -> bool) :
  Re.exactly p n s k = true <->
  exists piece rest,
    s = piece ++ rest /\ length piece = n /\ forallb p piece = true /\ k rest = true.
Proof.
  revert s. induction n as [|n IH]; intros s; simpl.
  - split.
    + intros Hk. exists [], s.
      split; [reflexivity|]. split; [reflexivity|]. split; [reflexivity | exact Hk].
    + intros (piece & rest & -> & Hlen & _ & Hk).
      destruct piece; [exact Hk | discriminate].
  - destruct s as [|x s].
    + split; [discriminate|].
      intros (piece & rest & Heq & Hlen & _).
      destruct piece; discriminate.
    + rewrite andb_true_iff, IH. split.
      * intros (Hx & piece & rest & -> & Hlen & Hall & Hk).
        exists (x :: piece), rest. simpl. rewrite Hx, Hall, Hlen.
        split; [reflexivity|]. split; [reflexivity|]. split; [reflexivity | exact Hk].
      * intros (piece & rest & Heq & Hlen & Hall & Hk).
        destruct piece as [|y piece]; [discriminate|].
        simpl in *. injection Heq as <- ->. injection Hlen as Hlen.
        apply andb_true_iff in Hall as [Hx Hall].
        split; [exact Hx|]. exists piece, rest.
        split; [reflexivity|]. split; [exact Hlen|]. split; [exact Hall | exact Hk].
Qed.

Lemma greedy_spec (p : char -> bool) (n : nat) (s : str) (k : str -> bool) :
  Re.greedy p n s k = true <->
  exists piece rest,
    s = piece ++ rest /\ (length piece <= n)%nat /\ forallb p piece = true /\
    k rest = true.
Proof.
  revert s. induction n as [|n IH]; intros s.
  - simpl. split.
    + intros Hk. exists [], s.
      split; [reflexivity|]. split; [reflexivity|]. split; [reflexivity | exact Hk].
    + intros (piece & rest & -> & Hlen & _ & Hk).
      destruct piece; [exact Hk | simpl in Hlen; lia].
  - destruct s as [|x s]; simpl.
    + split.
      * intros Hk. exists [], [].
        split; [reflexivity|]. split; [simpl; lia|]. split; [reflexivity | exact Hk].
      * intros (piece & rest & Heq & _ & _ & Hk).
        symmetry in Heq. apply app_eq_nil in Heq as [_ ->]. exact Hk.
    + rewrite orb_true_iff, andb_true_iff, IH. split.
      * intros [(Hx & piece & rest & -> & Hlen & Hall & Hk) | Hk].
        -- exists (x :: piece), rest. simpl. rewrite Hx, Hall.
           split; [reflexivity|]. split; [lia|]. split; [reflexivity | exact Hk].
        -- exists [], (x :: s).
           split; [reflexivity|]. split; [simpl; lia|]. split; [reflexivity | exact Hk].
      * intros (piece & rest & Heq & Hlen & Hall & Hk).
        destruct piece as [|y piece].
        -- right. simpl in Heq. subst rest. exact Hk.
        -- left. simpl in *. injection Heq as <- ->.
           apply andb_true_iff in Hall as [Hx Hall].
           split; [exact Hx|]. exists piece, rest.
           split; [reflexivity|]. split; [lia|]. split; [exact Hall | exact Hk].
Qed.

(** The backtracking matcher finds a match exactly when the string starts
    with one. *)
Lemma match_here_spec (pat : Re.pattern) (s : str) (k : str -> bool) :
  Forall item_wf pat ->
  Re.match_here pat s k = true <->
  exists matched rest, s = matched ++ rest /\ matches pat matched /\ k rest = true.
Proof.
  intros Hwf. revert s k.
  induction Hwf as [|it pat Hit Hwf IH]; intros s k.
  - simpl. split.
    + intros Hk. exists [], s.
      split; [reflexivity|]. split; [reflexivity | exact Hk].
    + intros (matched & rest & -> & -> & Hk). exact Hk.
  - cbn [Re.match_here matches]. rewrite exactly_spec. split.
    + intros (low & s1 & -> & Hlow & Hall & Hmore).
      apply greedy_spec in Hmore as (more & s2 & -> & Hmorelen & Hallmore & Hrest).
      apply IH in Hrest as (matched & rest & -> & Hmatched & Hk).
      exists ((low ++ more) ++ matched), rest.
      split; [rewrite <- !app_assoc; reflexivity|].
      split; [|exact Hk].
      exists (low ++ more), matched. split; [reflexivity|]. split; [|exact Hmatched].
      unfold matches_item, item_wf in *. rewrite length_app, forallb_app, Hall, Hallmore.
      split; [lia|]. split; [|reflexivity].
      destruct (Re.hi it); [lia | exact I].
    + intros (matched & rest & -> & (piece & s' & -> & (Hlo & Hhi & Hall) & Hs') & Hk).
      exists (take (Re.lo it) piece), (drop (Re.lo it) piece ++ s' ++ rest).
      split.
      { rewrite <- (take_drop (Re.lo it) piece) at 1.
        rewrite <- !app_assoc. reflexivity. }
      split; [rewrite length_take; lia|].
      rewrite <- (take_drop (Re.lo it) piece), forallb_app in Hall.
      apply andb_true_iff in Hall as [Hall1 Hall2].
      split; [exact Hall1|].
      apply greedy_spec. exists (drop (Re.lo it) piece), (s' ++ rest).
      split; [reflexivity|].
      split.
      { rewrite length_drop. destruct (Re.hi it).
        - lia.
        - rewrite !length_app, length_drop. lia. }
      split; [exact Hall2|].
      apply IH. exists s', rest.
      split; [reflexivity|]. split; [exact Hs' | exact Hk].
Qed.

Lemma re_search_spec (pat : Re.pattern) (s : str) :
  Forall item_wf pat ->
  Re.re_search pat s = true <->
  exists pre matched post, s = pre ++ matched ++ post /\ matches pat matched.
Proof.
  intros Hwf. induction s as [|x s IH].
  - simpl. rewrite orb_false_r, (match_here_spec _ _ _ Hwf). split.
    + intros (matched & rest & Heq & Hm & _). exists [], matched, rest.
      split; [exact Heq | exact Hm].
    + intros (pre & matched & post & Heq & Hm).
      symmetry in Heq. apply app_eq_nil in Heq as [-> Heq].
      apply app_eq_nil in Heq as [-> ->].
      exists [], []. split; [reflexivity|]. split; [exact Hm | reflexivity].
  - change (Re.re_search pat (x :: s))
      with (Re.match_here pat (x :: s) (fun _ => true) || Re.re_search pat s).
    rewrite orb_true_iff, (match_here_spec _ _ _ Hwf), IH. split.
    + intros [(matched & rest & Heq & Hm & _) | (pre & matched & post & -> & Hm)].
      * exists [], matched, rest. split; [exact Heq | exact Hm].
      * exists (x :: pre), matched, post. split; [reflexivity | exact Hm].
    + intros (pre & matched & post & Heq & Hm).
      destruct pre as [|y pre].
      * left. exists matched, post.
        split; [exact Heq|]. split; [exact Hm | reflexivity].
      * right. simpl in Heq. injection Heq as <- ->.
        exists pre, matched, post. split; [reflexivity | exact Hm].
Qed.
End matcher.

(** ** Flags and counts of the feature record *)
Section flags.
Context `{UnicodeData} `{IpAddress}.

Lemma lit_piece (ch : char) (piece : str) :
  matches_item (Re.lit ch) piece <-> piece = [ch].
Proof.
  unfold matches_item. simpl. split.
  - intros (Hlo & Hhi & Hall).
    destruct piece as [|x [|y piece]]; simpl in *; try lia.
    rewrite andb_true_r in Hall. apply N.eqb_eq in Hall. subst x. reflexivity.
  - intros ->. simpl. rewrite N.eqb_refl. split; [lia | split; [lia | reflexivity]].
Qed.

Lemma digit_piece (piece : str) :
  matches_item (Re.Item Str.isdecimal 1 (Some 3%nat)) piece <-> digit_group piece.
Proof. unfold matches_item, digit_group. simpl. tauto. Qed.

Lemma ip_pattern_wf : Forall item_wf ip_pattern.
Proof. unfold ip_pattern, item_wf. repeat constructor. Qed.

Lemma matches_ip_pattern (s : str) :
  matches ip_pattern s <->
  exists g1 g2 g3 g4,
    s = g1 ++ chr "." :: g2 ++ chr "." :: g3 ++ chr "." :: g4 /\
    digit_group g1 /\ digit_group g2 /\ digit_group g3 /\ digit_group g4.
Proof.
  unfold ip_pattern. cbn [matches]. split.
  - intros (g1 & s1 & -> & Hg1 & d1 & s2 & -> & Hd1 & g2 & s3 & -> & Hg2 &
            d2 & s4 & -> & Hd2 & g3 & s5 & -> & Hg3 & d3 & s6 & -> & Hd3 &
            g4 & s7 & -> & Hg4 & ->).
    apply lit_piece in Hd1, Hd2, Hd3. subst d1 d2 d3.
    apply digit_piece in Hg1, Hg2, Hg3, Hg4.
    exists g1, g2, g3, g4. rewrite app_nil_r.
    split; [reflexivity | tauto].
  - intros (g1 & g2 & g3 & g4 & -> & Hg1 & Hg2 & Hg3 & Hg4).
    apply digit_piece in Hg1, Hg2, Hg3, Hg4.
    exists g1, (chr "." :: g2 ++ chr "." :: g3 ++ chr "." :: g4).
    split; [reflexivity|]. split; [exact Hg1|].
    exists [chr "."], (g2 ++ chr "." :: g3 ++ chr "." :: g4).
    split; [reflexivity|]. split; [apply lit_piece; reflexivity|].
    exists g2, (chr "." :: g3 ++ chr "." :: g4).
    split; [reflexivity|]. split; [exact Hg2|].
    exists [chr "."], (g3 ++ chr "." :: g4).
    split; [reflexivity|]. split; [apply lit_piece; reflexivity|].
    exists g3, (chr "." :: g4).
    split; [reflexivity|]. split; [exact Hg3|].
    exists [chr "."], g4.
    split; [reflexivity|]. split; [apply lit_piece; reflexivity|].
    exists g4, []. rewrite app_nil_r.
    split; [reflexivity|]. split; [exact Hg4 | reflexivity].
Qed.

Lemma re_search_ip_pattern (url : str) :
  Re.re_search ip_pattern url = true <-> ipv4_shaped url.
Proof.
  rewrite (re_search_spec _ _ ip_pattern_wf). unfold ipv4_shaped. split.
  - intros (pre & matched & post & -> & Hm).
    apply matches_ip_pattern in Hm as (g1 & g2 & g3 & g4 & -> & Hg).
    exists pre, g1, g2, g3, g4, post. split; [|exact Hg].
    rewrite <- !app_assoc. simpl. rewrite <- !app_assoc. simpl.
    rewrite <- !app_assoc. reflexivity.
  - intros (pre & g1 & g2 & g3 & g4 & post & -> & Hg).
    exists pre, (g1 ++ chr "." :: g2 ++ chr "." :: g3 ++ chr "." :: g4), post.
    split.
    + rewrite <- !app_assoc. simpl. rewrite <- !app_assoc. simpl.
      rewrite <- !app_assoc. reflexivity.
    + apply matches_ip_pattern. exists g1, g2, g3, g4.
      split; [reflexivity | exact Hg].
Qed.

(** X1. [has_ip] is 1 exactly when the URL contains, anywhere, four groups
    of one to three decimal digits separated by single dots, and 0
    otherwise; the groups are not checked to be at most 255, and nothing
    is required of the characters around them. *)
Theorem has_ip_iff_ipv4_shaped (url : str) :
  (has_ip (extract_features url) = 1 <-> ipv4_shaped url) /\
  (has_ip (extract_features url) = 0 <-> ~ ipv4_shaped url).
Proof.
  destruct (extract_features_flags url) as (_ & Hip & _).
  rewrite Hip, <- re_search_ip_pattern. split.
  - apply flag_true.
  - destruct (Re.re_search ip_pattern url); simpl; split;
      intros; (discriminate || congruence || reflexivity).
Qed.
End flags.

Lemma has_ip_iff_ipv4_shaped_witness :
  @ipv4_shaped ascii_tables (pystr "http://999.999.999.999/x") /\
  has_ip (@extract_features ascii_tables no_ip_literals
            (pystr "http://999.999.999.999/x")) = 1.
Proof.
  assert (Hshape : @ipv4_shaped ascii_tables (pystr "http://999.999.999.999/x")).
  { exists (pystr "http://"), (pystr "999"), (pystr "999"), (pystr "999"),
      (pystr "999"), (pystr "/x").
    split; [reflexivity|]. unfold digit_group. simpl.
    repeat split; lia. }
  split; [exact Hshape|].
  apply (proj1 (@has_ip_iff_ipv4_shaped ascii_tables no_ip_literals _)).
  exact Hshape.
Defined.

Section counts.
Context `{UnicodeData} `{IpAddress}.

Lemma sum_bool_app (p : char -> bool) (s t : str) :
  Str.sum_bool p (s ++ t) = Str.sum_bool p s + Str.sum_bool p t.
Proof.
  unfold Str.sum_bool. rewrite List.filter_app, length_app. lia.
Qed.

Lemma sum_bool_cons (p : char -> bool) (ch : char) (s : str) :
  Str.sum_bool p (ch :: s) = (if p ch then 1 else 0) + Str.sum_bool p s.
Proof.
  unfold Str.sum_bool. simpl. destruct (p ch); simpl length; lia.
Qed.

Lemma count_app (ch : char) (s t : str) :
  Str.count ch (s ++ t) = Str.count ch s + Str.count ch t.
Proof. apply sum_bool_app. Qed.

Lemma count_nonneg (ch : char) (s : str) : 0 <= Str.count ch s.
Proof. apply sum_bool_nonneg. Qed.

Lemma count_cons_same (ch : char) (s : str) :
  Str.count ch (ch :: s) = 1 + Str.count ch s.
Proof.
  unfold Str.count, Str.sum_bool. simpl. rewrite N.eqb_refl. simpl length. lia.
Qed.

Lemma has_char_count (ch : char) (s : str) :
  Str.has_char ch s = true <-> 1 <= Str.count ch s.
Proof.
  unfold Str.has_char, Str.count, Str.sum_bool.
  induction s as [|x s IH]; simpl.
  - split; [discriminate | lia].
  - destruct (ch =? x)%N; simpl.
    + split; [intros _; lia | reflexivity].
    + exact IH.
Qed.

(** [sub in s]: [s] is [sub] between a prefix and a suffix. *)
Lemma contains_split (sub s : str) :
  Str.contains sub s = true <-> exists pre post, s = pre ++ sub ++ post.
Proof.
  rewrite contains_spec. split.
  - intros (i & Hi). exists (take i s), (drop (length sub) (drop i s)).
    rewrite <- Hi at 1. rewrite take_drop, take_drop. reflexivity.
  - intros (pre & post & ->). exists (length pre).
    rewrite drop_app_length, take_app_length. reflexivity.
Qed.

Lemma extract_features_counts (url : str) :
  let features := extract_features url in
  num_dots features = Str.count (chr ".") url /\
  num_hyphens features = Str.count (chr "-") url /\
  num_underscores features = Str.count (chr "_") url /\
  num_slashes features = Str.count (chr "/") url /\
  num_at features = Str.count (chr "@") url /\
  num_question features = Str.count (chr "?") url /\
  num_equals features = Str.count (chr "=") url /\
  num_ampersand features = Str.count (chr "&") url /\
  num_percent features = Str.count (chr "%") url /\
  num_digits features = Str.sum_bool Str.isdigit url.
Proof. unfold extract_features. destruct (parse_step url). repeat split. Qed.

Lemma extract_features_more_flags (url : str) :
  let features := extract_features url in
  has_https features = flag (Str.startswith (pystr "https") url) /\
  has_www features = flag (Str.contains (pystr "www.") url) /\
  has_at_sign features = flag (Str.has_char (chr "@") url).
Proof. unfold extract_features. destruct (parse_step url). repeat split. Qed.

(** A character is at most one of: one of the nine counted punctuation
    marks, a digit. *)
Lemma counted_once (ch : char) :
  List.fold_right
    (fun (p : char -> bool) acc => (if p ch then 1 else 0) + acc) 0
    [N.eqb (chr "."); N.eqb (chr "-"); N.eqb (chr "_"); N.eqb (chr "/");
     N.eqb (chr "@"); N.eqb (chr "?"); N.eqb (chr "="); N.eqb (chr "&");
     N.eqb (chr "%"); Str.isdigit] <= 1.
Proof.
  cbn [List.fold_right].
  repeat match goal with
  | |- context [(?c =? ch)%N] =>
      destruct (N.eqb_spec c ch) as [<-|_]; [vm_compute; discriminate|]
  end.
  destruct (Str.isdigit ch); lia.
Qed.

(** X2. The nine punctuation counts and the digit count of a record are
    each at least 0, and together they never exceed [url_length]: no
    character is counted twice. *)
Theorem counts_within_url_length (url : str) :
  let features := extract_features url in
  (0 <= num_dots features /\ 0 <= num_hyphens features /\
   0 <= num_underscores features /\ 0 <= num_slashes features /\
   0 <= num_at features /\ 0 <= num_question features /\
   0 <= num_equals features /\ 0 <= num_ampersand features /\
   0 <= num_percent features /\ 0 <= num_digits features) /\
  num_dots features + num_hyphens features + num_underscores features
  + num_slashes features + num_at features + num_question features
  + num_equals features + num_ampersand features + num_percent features
  + num_digits features <= url_length features.
Proof.
  intros features. subst features.
  destruct (extract_features_counts url)
    as (-> & -> & -> & -> & -> & -> & -> & -> & -> & ->).
  rewrite extract_features_url_length.
  split.
  - repeat split; apply sum_bool_nonneg.
  - unfold Str.count.
    induction url as [|ch url IH]; [vm_compute; discriminate|].
    pose proof (counted_once ch) as Hch. cbn [List.fold_right] in Hch.
    rewrite !sum_bool_cons.
    replace (Str.len (ch :: url)) with (1 + Str.len url)
      by (unfold Str.len; simpl length; lia).
    lia.
Qed.
End counts.

Section flags_and_counts.
Context `{UnicodeData} `{IpAddress}.

Lemma count_of_split (ch : char) (pre sub post : str) :
  Str.count ch sub <= Str.count ch (pre ++ sub ++ post).
Proof.
  rewrite !count_app.
  pose proof (count_nonneg ch pre). pose proof (count_nonneg ch post). lia.
Qed.

(** X3. The flags of a record agree with its counts: [has_at_sign] is 1
    exactly when [num_at] is at least 1 and [has_hex_encoding] exactly
    when [num_percent] is; a record with [has_www] has a dot, one with
    [has_double_slash] has two slashes and at least 9 characters, one with
    [has_ip] has three dots and at least 7 characters, one with
    [has_https] at least 5 characters.  Every flag is 0 or 1. *)
Theorem flags_agree_with_counts (url : str) :
  let features := extract_features url in
  (has_at_sign features = 1 <-> 1 <= num_at features) /\
  (has_hex_encoding features = 1 <-> 1 <= num_percent features) /\
  (has_www features = 1 -> 1 <= num_dots features) /\
  (has_double_slash features = 1 ->
   2 <= num_slashes features /\ 9 <= url_length features) /\
  (has_ip features = 1 -> 3 <= num_dots features /\ 7 <= url_length features) /\
  (has_https features = 1 -> 5 <= url_length features) /\
  Forall (fun f => f = 0 \/ f = 1)
    [has_ip features; has_https features; has_www features;
     has_at_sign features; has_double_slash features;
     has_hex_encoding features; has_suspicious_word features].
Proof.
  intros features.
  destruct (extract_features_flags url) as (Hkw & Hip & Hhex & Hds & _).
  destruct (extract_features_more_flags url) as (Hhttps & Hwww & Hat).
  destruct (extract_features_counts url)
    as (Hdots & _ & _ & Hslashes & Hnat & _ & _ & _ & Hpct & _).
  pose proof (extract_features_url_length url) as Hlen.
  fold features in Hkw, Hip, Hhex, Hds, Hhttps, Hwww, Hat, Hdots,
    Hslashes, Hnat, Hpct, Hlen.
  split; [|split; [|split; [|split; [|split; [|split]]]]].
  - rewrite Hat, Hnat, flag_true. apply has_char_count.
  - rewrite Hhex, Hpct, flag_true. apply has_char_count.
  - rewrite Hwww, Hdots, flag_true, contains_split.
    intros (pre & post & ->).
    etransitivity; [|apply count_of_split]. vm_compute. discriminate.
  - rewrite Hds, Hslashes, Hlen, flag_true, contains_split.
    intros (pre & post & Heq).
    rewrite <- (take_drop 7 url), Heq. split.
    + rewrite count_app.
      pose proof (count_nonneg (chr "/") (take 7 url)).
      pose proof (count_of_split (chr "/") pre (pystr "//") post) as Hsub.
      change (Str.count (chr "/") (pystr "//")) with 2 in Hsub. lia.
    + assert (Hseven : length (take 7 url) = 7%nat).
      { rewrite length_take. apply Nat.min_l.
        assert (Hdrop : (0 < length (drop 7 url))%nat)
          by (rewrite Heq, !length_app; simpl; lia).
        rewrite length_drop in Hdrop. lia. }
      unfold Str.len. rewrite !length_app, Hseven. simpl length. lia.
  - rewrite Hip, Hdots, Hlen, flag_true, re_search_ip_pattern. intros Hone.
    destruct Hone as (pre & g1 & g2 & g3 & g4 & post & -> &
                      [[H1 _] _] & [[H2 _] _] & [[H3 _] _] & [[H4 _] _]).
    split.
    + rewrite count_app, count_app, count_cons_same, count_app, count_cons_same,
        count_app, count_cons_same, count_app.
      pose proof (count_nonneg (chr ".") pre).
      pose proof (count_nonneg (chr ".") g1).
      pose proof (count_nonneg (chr ".") g2).
      pose proof (count_nonneg (chr ".") g3).
      pose proof (count_nonneg (chr ".") g4).
      pose proof (count_nonneg (chr ".") post). lia.
    + unfold Str.len.
      repeat (rewrite length_app || rewrite length_cons). lia.
  - rewrite Hhttps, Hlen, flag_true, startswith_spec.
    intros Htake. unfold Str.len.
    assert (Hfive : length (take (length (pystr "https")) url) = 5%nat)
      by (rewrite Htake; reflexivity).
    rewrite length_take in Hfive.
    change (length (pystr "https")) with 5%nat in Hfive. lia.
  - rewrite Hkw, Hip, Hhex, Hds, Hhttps, Hwww, Hat.
    repeat (apply Forall_cons; split;
              [match goal with
               | |- flag ?b = 0 \/ _ => destruct b; [right | left]; reflexivity
               end|]).
    apply Forall_nil_2.
Qed.
End flags_and_counts.

Lemma flags_agree_with_counts_witness :
  let features :=
    @extract_features ascii_tables no_ip_literals
      (pystr "https://www.example.com/a//b") in
  has_www features = 1 /\ has_double_slash features = 1 /\
  1 <= num_dots features /\ 2 <= num_slashes features.
Proof.
  intros features.
  destruct (@flags_agree_with_counts ascii_tables no_ip_literals
              (pystr "https://www.example.com/a//b"))
    as (_ & _ & Hwww & Hds & _).
  fold features in Hwww, Hds.
  assert (Hw : has_www features = 1) by reflexivity.
  assert (Hd : has_double_slash features = 1) by reflexivity.
  split; [exact Hw|]. split; [exact Hd|].
  split; [exact (Hwww Hw) | exact (proj1 (Hds Hd))].
Defined.

Section keywords.
Context `{UnicodeData} `{IpAddress}.

Lemma isascii_app (s t : str) :
  Str.isascii (s ++ t) = Str.isascii s && Str.isascii t.
Proof. apply forallb_app. Qed.

Lemma lower_ascii (s : str) :
  Str.isascii s = true -> Str.lower s = List.map Str.ascii_lower s.
Proof. unfold Str.lower. intros ->. reflexivity. Qed.

(** X4. For an all-ASCII URL, [has_suspicious_word] is 1 exactly when
    some substring of the URL, lower-cased, is one of the twelve keywords:
    the keywords are found whatever the letter case, and inside longer
    words. *)
Theorem has_suspicious_word_any_case (url : str) :
  Str.isascii url = true ->
  (has_suspicious_word (extract_features url) = 1 <->
   exists pre w post, url = pre ++ w ++ post /\ Str.lower w ∈ suspicious_words).
Proof.
  intros Hascii.
  destruct (extract_features_flags url) as (-> & _).
  rewrite flag_true, existsb_exists, (lower_ascii _ Hascii). split.
  - intros (kw & Hin & Hsub).
    apply contains_split in Hsub as (pre' & post' & Hmap).
    apply List.map_eq_app in Hmap as (pre & rest & -> & <- & Hrest).
    apply List.map_eq_app in Hrest as (w & post & -> & <- & <-).
    exists pre, w, post. split; [reflexivity|].
    rewrite !isascii_app in Hascii.
    apply andb_true_iff in Hascii as [_ Hascii].
    apply andb_true_iff in Hascii as [Hw _].
    rewrite (lower_ascii _ Hw). apply list_elem_of_In. exact Hin.
  - intros (pre & w & post & -> & Hin).
    exists (Str.lower w). split; [apply list_elem_of_In; exact Hin|].
    apply contains_split.
    exists (List.map Str.ascii_lower pre), (List.map Str.ascii_lower post).
    rewrite !isascii_app in Hascii.
    apply andb_true_iff in Hascii as [_ Hascii].
    apply andb_true_iff in Hascii as [Hw _].
    rewrite (lower_ascii _ Hw), !List.map_app. reflexivity.
Qed.
End keywords.

Lemma has_suspicious_word_any_case_witness :
  let url := pystr "http://x.com/MyPayPal-LogIn" in
  Str.isascii url = true /\
  has_suspicious_word (@extract_features ascii_tables no_ip_literals url) = 1.
Proof.
  intros url.
  assert (Hascii : Str.isascii url = true) by reflexivity.
  split; [exact Hascii|].
  apply (proj2 (@has_suspicious_word_any_case ascii_tables no_ip_literals url Hascii)).
  exists (pystr "http://x.com/My"), (pystr "PayPal"), (pystr "-LogIn").
  split; [reflexivity|].
  change (@Str.lower ascii_tables (pystr "PayPal")) with (pystr "paypal").
  unfold suspicious_words. simpl List.map.
  do 7 right. left.
Defined.

(** ** Whitespace around submitted URLs *)
Section whitespace.
Context `{UnicodeData} `{IpAddress} `{Classifier}.

Lemma lstrip_if_suffix (p : char -> bool) (s : str) :
  exists pre, s = pre ++ Str.lstrip_if p s.
Proof.
  induction s as [|x s (pre & IH)]; simpl.
  - exists []. reflexivity.
  - destruct (p x).
    + exists (x :: pre). simpl. rewrite <- IH. reflexivity.
    + exists []. reflexivity.
Qed.

Lemma lstrip_if_head (p : char -> bool) (s : str) :
  match Str.lstrip_if p s with
  | [] => True
  | x :: _ => p x = false
  end.
Proof.
  induction s as [|x s IH]; simpl; [exact I|].
  destruct (p x) eqn:Hx; [exact IH | exact Hx].
Qed.

Lemma lstrip_if_fixed (p : char -> bool) (s : str) :
  match s with [] => True | x :: _ => p x = false end ->
  Str.lstrip_if p s = s.
Proof. destruct s as [|x s]; simpl; [reflexivity | intros ->; reflexivity]. Qed.

Lemma lstrip_if_idempotent (p : char -> bool) (s : str) :
  Str.lstrip_if p (Str.lstrip_if p s) = Str.lstrip_if p s.
Proof. apply lstrip_if_fixed, lstrip_if_head. Qed.

Lemma rstrip_if_prefix (p : char -> bool) (s : str) :
  exists post, s = Str.rstrip_if p s ++ post.
Proof.
  unfold Str.rstrip_if.
  destruct (lstrip_if_suffix p (rev s)) as (pre & Hpre).
  exists (rev pre). rewrite <- rev_app_distr, <- Hpre, rev_involutive. reflexivity.
Qed.

Lemma rstrip_if_idempotent (p : char -> bool) (s : str) :
  Str.rstrip_if p (Str.rstrip_if p s) = Str.rstrip_if p s.
Proof.
  unfold Str.rstrip_if. rewrite rev_involutive, lstrip_if_idempotent. reflexivity.
Qed.

(** Stripping twice is stripping once. *)
Lemma strip_idempotent (s : str) : Str.strip (Str.strip s) = Str.strip s.
Proof.
  unfold Str.strip.
  set (t := Str.lstrip_if Str.isspace s).
  assert (Hleft : Str.lstrip_if Str.isspace (Str.rstrip_if Str.isspace t)
                  = Str.rstrip_if Str.isspace t).
  { apply lstrip_if_fixed.
    destruct (rstrip_if_prefix Str.isspace t) as (post & Hpost).
    pose proof (lstrip_if_head Str.isspace s) as Hhead. fold t in Hhead.
    destruct (Str.rstrip_if Str.isspace t) as [|x r]; [exact I|].
    rewrite Hpost in Hhead. exact Hhead. }
  rewrite Hleft. apply rstrip_if_idempotent.
Qed.

Lemma bulk_step_strip (results : list result) (url : str) :
  bulk_step results (Str.strip url) = bulk_step results url.
Proof. unfold bulk_step. rewrite strip_idempotent. reflexivity. Qed.

Lemma bulk_loop_strip (urls : list str) (results : list result) :
  bulk_loop (Str.strip <$> urls) results = bulk_loop urls results.
Proof.
  revert results. induction urls as [|url urls IH]; intros results; [reflexivity|].
  cbn [fmap list_fmap bulk_loop]. rewrite bulk_step_strip.
  unfold bind. destruct (bulk_step results url) as [[results'|] trace]; [|reflexivity].
  fold (fmap (M := list) Str.strip urls). rewrite IH. reflexivity.
Qed.

(** X5. White space before and after a submitted URL changes nothing:
    [predict] answers a URL and its stripped form alike, and [bulk]
    answers a batch and the batch of its stripped entries alike, down to
    the calls made.  The features are those of the stripped URL. *)
Theorem handlers_ignore_surrounding_whitespace :
  (forall url, predict (Some (Str.strip url)) = predict (Some url)) /\
  (forall urls, bulk (Some (Str.strip <$> urls)) = bulk (Some urls)) /\
  (forall url, Str.strip url <> [] ->
     head (predict (Some url)).2 = Some (ExtractFeatures (Str.strip url))).
Proof.
  split; [|split].
  - intros url. unfold predict. simpl default.
    rewrite strip_idempotent. reflexivity.
  - intros urls. rewrite !bulk_unfold.
    change (default [] (Some (Str.strip <$> urls))) with (Str.strip <$> urls).
    change (default [] (Some urls)) with urls.
    destruct urls as [|url urls]; [reflexivity|].
    change (Str.strip <$> url :: urls) with (Str.strip url :: (Str.strip <$> urls)).
    cbv beta iota.
    change (Str.strip url :: (Str.strip <$> urls)) with (Str.strip <$> url :: urls).
    rewrite length_fmap, bulk_loop_strip. reflexivity.
  - intros url Hurl. rewrite predict_unfold. simpl default.
    destruct (Str.strip url); [contradiction | reflexivity].
Qed.
End whitespace.

Lemma handlers_ignore_surrounding_whitespace_witness :
  let url := pystr "  http://a.com " in
  @Str.strip ascii_tables url <> [] /\
  head (@predict ascii_tables no_ip_literals two_class_classifier (Some url)).2
  = Some (ExtractFeatures (pystr "http://a.com")).
Proof.
  intros url.
  assert (Hurl : @Str.strip ascii_tables url <> []) by discriminate.
  split; [exact Hurl|].
  exact (proj2 (proj2 (@handlers_ignore_surrounding_whitespace
                         ascii_tables no_ip_literals two_class_classifier))
           url Hurl).
Defined.

(** ** Batches *)
Section batches.
Context `{UnicodeData} `{IpAddress} `{Classifier}.

Lemma bind_assoc {A B C} (m : run A) (f : A -> run B) (g : B -> run C) :
  bind (bind m f) g = bind m (fun a => bind (f a) g).
Proof.
  destruct m as [[a|] t]; [|reflexivity].
  unfold bind. destruct (f a) as [[b|] t']; [|reflexivity].
  destruct (g b) as [o t'']. rewrite app_assoc. reflexivity.
Qed.

Lemma bulk_loop_app (urls urls' : list str) (results : list result) :
  bulk_loop (urls ++ urls') results
  = bind (bulk_loop urls results) (bulk_loop urls').
Proof.
  revert results. induction urls as [|url urls IH]; intros results.
  - simpl. unfold bind, ret. destruct (bulk_loop urls' results). reflexivity.
  - cbn [app bulk_loop]. rewrite bind_assoc.
    unfold bind at 1 3. destruct (bulk_step results url) as [[results'|] trace];
      [|reflexivity].
    rewrite IH. reflexivity.
Qed.

(** The results so far are only ever appended to. *)
Lemma bulk_loop_acc (urls : list str) (results : list result) :
  bulk_loop urls results =
  match bulk_loop urls [] with
  | (Returned new, trace) => (Returned (results ++ new), trace)
  | (Raised, trace) => (Raised, trace)
  end.
Proof.
  revert results. induction urls as [|url urls IH]; intros results.
  - simpl. unfold ret. rewrite app_nil_r. reflexivity.
  - cbn [bulk_loop]. rewrite !bulk_step_unfold.
    destruct (Str.strip url) as [|x url'].
    + unfold bind. rewrite (IH results).
      destruct (bulk_loop urls []) as [[new|] trace]; reflexivity.
    + unfold bind. destruct (classify (x :: url')) as [r|]; [|reflexivity].
      rewrite (IH (results ++ [r])), (IH ([] ++ [r])).
      destruct (bulk_loop urls []) as [[new|] trace]; [|reflexivity].
      rewrite <- app_assoc. reflexivity.
Qed.

Lemma bulk_of_loop (urls : list str) (results : list result) (trace : list call) :
  urls <> [] -> (length urls <= 500)%nat ->
  bulk_loop urls [] = (Returned results, trace) ->
  bulk (Some urls)
  = (Returned (BulkResponse results (summary_of results)
                 (Z.of_nat (length results))), trace).
Proof.
  intros Hne Hsize Hrun. rewrite bulk_unfold.
  destruct urls as [|url urls]; [contradiction|].
  change (default [] (Some (url :: urls))) with (url :: urls). cbv beta iota.
  destruct (500 <? Z.of_nat (length (url :: urls))) eqn:Hbig;
    [apply Z.ltb_lt in Hbig; lia|].
  rewrite Hrun. reflexivity.
Qed.

Lemma loop_of_bulk (data_urls : option (list str)) (results : list result)
      (summary : gmap str Z) (total : Z) (trace : list call) :
  bulk data_urls = (Returned (BulkResponse results summary total), trace) ->
  exists urls,
    data_urls = Some urls /\ urls <> [] /\ (length urls <= 500)%nat /\
    bulk_loop urls [] = (Returned results, trace) /\
    summary = summary_of results /\ total = Z.of_nat (length results).
Proof.
  rewrite bulk_unfold. destruct data_urls as [urls|]; [|discriminate].
  change (default [] (Some urls)) with urls.
  destruct urls as [|url urls]; [discriminate|].
  destruct (500 <? Z.of_nat (length (url :: urls))) eqn:Hbig; [discriminate|].
  apply Z.ltb_ge in Hbig.
  destruct (bulk_loop (url :: urls) []) as [[results'|] trace'] eqn:Hrun;
    [|discriminate].
  intros Heq. injection Heq as <- <- <- <-.
  exists (url :: urls). split; [reflexivity|]. split; [discriminate|].
  split; [lia|]. split; [exact Hrun|]. split; reflexivity.
Qed.

Lemma tally_app (results results' : list result) (c : str) :
  tally (results ++ results') c = tally results c + tally results' c.
Proof. unfold tally. rewrite List.filter_app, length_app. lia. Qed.

(** X6. A batch can be cut in two: when two batches are answered with
    results, the batch of the first followed by the second (if it is
    still within 500 entries) is answered with the first results followed
    by the second, the sum of the totals, the label-wise sum of the
    summaries, and the calls of the first followed by those of the
    second. *)
Theorem bulk_of_concatenation (urls urls' : list str)
        (results results' : list result) (summary summary' : gmap str Z)
        (total total' : Z) (trace trace' : list call) :
  bulk (Some urls) = (Returned (BulkResponse results summary total), trace) ->
  bulk (Some urls') = (Returned (BulkResponse results' summary' total'), trace') ->
  (length (urls ++ urls') <= 500)%nat ->
  exists summary'',
    bulk (Some (urls ++ urls'))
    = (Returned (BulkResponse (results ++ results') summary'' (total + total')),
       trace ++ trace') /\
    forall c, c ∈ le_classes ->
      summary'' !! c = Some (default 0 (summary !! c) + default 0 (summary' !! c)).
Proof.
  intros Hfirst Hsecond Hsize.
  apply loop_of_bulk in Hfirst as (? & [= <-] & Hne & _ & Hrun & -> & ->).
  apply loop_of_bulk in Hsecond as (? & [= <-] & _ & _ & Hrun' & -> & ->).
  exists (summary_of (results ++ results')). split.
  - rewrite (bulk_of_loop (urls ++ urls') (results ++ results') (trace ++ trace')).
    + rewrite length_app, Nat2Z.inj_add. reflexivity.
    + destruct urls; [contradiction | discriminate].
    + exact Hsize.
    + rewrite bulk_loop_app, Hrun. unfold bind.
      rewrite (bulk_loop_acc urls' results), Hrun'. reflexivity.
  - intros c Hc. rewrite !summary_lookup, !decide_True by exact Hc.
    simpl. rewrite tally_app. reflexivity.
Qed.

(** X7. A batch whose entries are all blank is not an error: if it has 1
    to 500 entries, [bulk] answers it with no result, total 0 and a
    summary that binds every label to 0, and calls neither the extractor
    nor the classifier. *)
Theorem bulk_of_blank_entries (urls : list str) :
  urls <> [] -> (length urls <= 500)%nat ->
  Forall (fun url => Str.strip url = []) urls ->
  exists summary,
    bulk (Some urls) = (Returned (BulkResponse [] summary 0), []) /\
    (forall c, c ∈ le_classes -> summary !! c = Some 0) /\
    (forall c, c ∉ le_classes -> summary !! c = None).
Proof.
  intros Hne Hsize Hblank. exists (summary_of []).
  split; [|split].
  - apply (bulk_of_loop urls [] [] Hne Hsize).
    clear Hne Hsize. induction Hblank as [|url urls Hurl _ IH]; [reflexivity|].
    cbn [bulk_loop]. rewrite bulk_step_unfold, Hurl. unfold bind.
    rewrite IH. reflexivity.
  - intros c Hc. rewrite summary_lookup, decide_True by exact Hc. reflexivity.
  - intros c Hc. rewrite summary_lookup, decide_False by exact Hc. reflexivity.
Qed.
End batches.

Lemma bulk_of_concatenation_witness :
  let urls := [pystr "http://a.com"] in
  let urls' := [pystr " "; pystr "192.168.1.1/admin"] in
  exists results summary trace,
    @bulk ascii_tables no_ip_literals two_class_classifier (Some (urls ++ urls'))
    = (Returned (BulkResponse results summary 2), trace).
Proof.
  intros urls urls'.
  destruct (@bulk_valid_batch ascii_tables no_ip_literals two_class_classifier urls
              two_class_classifier_answers)
    as (results & Hrun & Hall); [discriminate | simpl; lia |].
  destruct (@bulk_valid_batch ascii_tables no_ip_literals two_class_classifier urls'
              two_class_classifier_answers)
    as (results' & Hrun' & Hall'); [discriminate | simpl; lia |].
  destruct (@bulk_of_concatenation ascii_tables no_ip_literals two_class_classifier
              _ _ _ _ _ _ _ _ _ _ Hrun Hrun') as (summary'' & Hboth & _);
    [simpl; lia|].
  apply Forall2_length in Hall, Hall'.
  rewrite <- Hall, <- Hall' in Hboth.
  eexists _, _, _. exact Hboth.
Defined.

Lemma bulk_of_blank_entries_witness :
  let urls := [pystr ""; pystr "  "] in
  urls <> [] /\ (length urls <= 500)%nat /\
  Forall (fun url => @Str.strip ascii_tables url = []) urls /\
  exists summary,
    @bulk ascii_tables no_ip_literals two_class_classifier (Some urls)
    = (Returned (BulkResponse [] summary 0), []).
Proof.
  intros urls.
  assert (Hne : urls <> []) by discriminate.
  assert (Hsize : (length urls <= 500)%nat) by (simpl; lia).
  assert (Hblank : Forall (fun url => @Str.strip ascii_tables url = []) urls)
    by (repeat constructor).
  split; [exact Hne|]. split; [exact Hsize|]. split; [exact Hblank|].
  destruct (@bulk_of_blank_entries ascii_tables no_ip_literals two_class_classifier
              urls Hne Hsize Hblank) as (summary & Hrun & _).
  exists summary. exact Hrun.
Defined.

Section batch_outcomes.
Context `{UnicodeData} `{IpAddress} `{Classifier}.

(** The loop stops at the first surviving URL the classifier raises on:
    the URLs before it have been processed, the ones after it are never
    looked at. *)
Lemma bulk_loop_outcome (urls : list str) (results : list result) :
  (exists new,
      Forall2 (fun url r => classify url = Some r) (surviving urls) new /\
      bulk_loop urls results
      = (Returned (results ++ new), flat_map calls_for (surviving urls)))
  \/ (exists done url rest,
         surviving urls = done ++ url :: rest /\
         Forall (fun u => is_Some (classify u)) done /\
         classify url = None /\
         bulk_loop urls results = (Raised, flat_map calls_for (done ++ [url]))).
Proof.
  revert results. induction urls as [|entry urls IH]; intros results.
  - left. exists []. split; [constructor|]. simpl. unfold ret.
    rewrite app_nil_r. reflexivity.
  - cbn [bulk_loop]. rewrite bulk_step_unfold, surviving_cons.
    destruct (Str.strip entry) as [|x url'].
    + unfold bind.
      destruct (IH results) as [(new & Hall & ->) | (done & u & rest & Hsurv & Hdone & Hnone & ->)].
      * left. exists new. split; [exact Hall | reflexivity].
      * right. exists done, u, rest. repeat split; assumption.
    + unfold bind. destruct (classify (x :: url')) as [r|] eqn:Hr.
      * destruct (IH (results ++ [r]))
          as [(new & Hall & ->) | (done & u & rest & Hsurv & Hdone & Hnone & ->)].
        -- left. exists (r :: new). split; [constructor; assumption|].
           rewrite <- app_assoc. reflexivity.
        -- right. exists ((x :: url') :: done), u, rest.
           split; [rewrite Hsurv; reflexivity|].
           split; [constructor; [rewrite Hr; eexists; reflexivity | exact Hdone]|].
           split; [exact Hnone | reflexivity].
      * right. exists [], (x :: url'), (surviving urls).
        split; [reflexivity|]. split; [constructor|].
        split; [exact Hr|]. simpl. rewrite ?app_nil_r. reflexivity.
Qed.

(** X8. A batch of 1 to 500 entries is answered as a whole or not at
    all.  [bulk] raises exactly when the classifier raises on some
    surviving URL; it then stops at the first such URL, having made the
    calls of the URLs up to it and none for the ones after it, and hands
    back no partial result.  Otherwise it returns. *)
Theorem bulk_all_or_nothing (urls : list str) :
  urls <> [] -> (length urls <= 500)%nat ->
  ((exists trace, bulk (Some urls) = (Raised, trace)) <->
   (exists url, url ∈ surviving urls /\ classify url = None)) /\
  (forall trace, bulk (Some urls) = (Raised, trace) ->
     exists done url rest,
       surviving urls = done ++ url :: rest /\
       Forall (fun u => is_Some (classify u)) done /\
       classify url = None /\
       trace = flat_map calls_for (done ++ [url])) /\
  ((forall url, url ∈ surviving urls -> is_Some (classify url)) ->
   exists results summary total,
     bulk (Some urls)
     = (Returned (BulkResponse results summary total),
        flat_map calls_for (surviving urls))).
Proof.
  intros Hne Hsize.
  assert (Hbulk : bulk (Some urls) =
            match bulk_loop urls [] with
            | (Returned results, trace) =>
                (Returned (BulkResponse results (summary_of results)
                             (Z.of_nat (length results))), trace)
            | (Raised, trace) => (Raised, trace)
            end).
  { rewrite bulk_unfold. destruct urls as [|url urls]; [contradiction|].
    change (default [] (Some (url :: urls))) with (url :: urls). cbv beta iota.
    destruct (500 <? Z.of_nat (length (url :: urls))) eqn:Hbig;
      [apply Z.ltb_lt in Hbig; lia | reflexivity]. }
  rewrite Hbulk.
  destruct (bulk_loop_outcome urls [])
    as [(new & Hall & ->) | (done & u & rest & Hsurv & Hdone & Hnone & ->)].
  - split; [|split].
    + split; [intros (trace & Hraised); discriminate|].
      intros (url & Hin & Hnone). exfalso.
      clear -Hall Hin Hnone.
      induction Hall as [|u r us new Hr _ IH]; [inversion Hin|].
      apply elem_of_cons in Hin as [->|Hin]; [congruence | exact (IH Hin)].
    + intros trace Hraised. discriminate.
    + intros _. eexists _, _, _. reflexivity.
  - split; [|split].
    + split; [|intros _; eexists; reflexivity].
      intros _. exists u. split; [|exact Hnone].
      rewrite Hsurv. apply elem_of_app. right. left.
    + intros trace [= <-]. exists done, u, rest.
      split; [exact Hsurv|]. split; [exact Hdone|]. split; [exact Hnone | reflexivity].
    + intros Hall. exfalso.
      destruct (Hall u) as [r Hr]; [|congruence].
      rewrite Hsurv. apply elem_of_app. right. left.
Qed.

(** X9. In every response [bulk] returns, [total] is at most the number of
    entries submitted, hence at most 500; every count of [summary] lies
    between 0 and [total]; and every result carries a URL that is not
    empty and has no white space left around it. *)
Theorem bulk_response_bounds (urls : list str) (results : list result)
        (summary : gmap str Z) (total : Z) (trace : list call) :
  bulk (Some urls) = (Returned (BulkResponse results summary total), trace) ->
  0 <= total <= Z.of_nat (length urls) /\ total <= 500 /\
  (forall c count, summary !! c = Some count -> 0 <= count <= total) /\
  Forall (fun r => r_url r <> [] /\ Str.strip (r_url r) = r_url r) results.
Proof.
  intros Hrun.
  pose proof (bulk_returned _ _ _ _ _ Hrun) as (_ & _ & Hall).
  apply loop_of_bulk in Hrun as (? & [= <-] & _ & Hsize & _ & -> & ->).
  change (default [] (Some urls)) with urls in Hall.
  assert (Hlen : (length results <= length urls)%nat).
  { rewrite <- (Forall2_length _ _ _ Hall). unfold surviving.
    etransitivity; [apply List.filter_length_le | rewrite length_map; reflexivity]. }
  split; [lia|]. split; [lia|]. split.
  - intros c count. rewrite summary_lookup.
    destruct (decide (c ∈ le_classes)); [|discriminate].
    intros [= <-]. unfold tally. split; [lia|].
    apply inj_le, List.filter_length_le.
  - assert (Hsurv : Forall (fun url => url <> [] /\ Str.strip url = url)
                      (surviving urls)).
    { unfold surviving. apply Forall_forall. intros url Hin.
      apply list_elem_of_In, List.filter_In in Hin as [Hin Hnonblank].
      apply List.in_map_iff in Hin as (raw & <- & _).
      split; [|apply strip_idempotent].
      intros Hblank. rewrite Hblank in Hnonblank. discriminate. }
    clear -Hall Hsurv.
    induction Hall as [|url r us rs Hr _ IH]; [constructor|].
    inversion Hsurv as [|? ? Hurl Hrest]; subst.
    constructor; [|exact (IH Hrest)].
    rewrite (proj1 (classify_url _ _ Hr)). exact Hurl.
Qed.
End batch_outcomes.

Lemma bulk_all_or_nothing_witness :
  let urls := [pystr "http://a.com"; pystr "192.168.1.1/admin"; pystr "http://b.com"] in
  urls <> [] /\ (length urls <= 500)%nat /\
  @bulk ascii_tables no_ip_literals stale_classifier (Some urls)
  = (Raised,
     flat_map (@calls_for ascii_tables no_ip_literals stale_classifier)
       [pystr "http://a.com"; pystr "192.168.1.1/admin"]).
Proof.
  intros urls.
  assert (Hne : urls <> []) by discriminate.
  assert (Hsize : (length urls <= 500)%nat) by (simpl; lia).
  split; [exact Hne|]. split; [exact Hsize|].
  destruct (@bulk_all_or_nothing ascii_tables no_ip_literals stale_classifier
              urls Hne Hsize) as (Hiff & Hstop & _).
  assert (Hfails : exists url,
             url ∈ @surviving ascii_tables urls /\
             @classify ascii_tables no_ip_literals stale_classifier url = None).
  { exists (pystr "192.168.1.1/admin"). split; [right; left | reflexivity]. }
  apply Hiff in Hfails as (trace & Hraised).
  destruct (Hstop trace Hraised) as (done & url & rest & Hsurv & Hdone & Hnone & ->).
  rewrite Hraised. f_equal. f_equal.
  change (@surviving ascii_tables urls) with urls in Hsurv.
  destruct done as [|d0 done].
  - injection Hsurv as <- _. discriminate Hnone.
  - injection Hsurv as <- Hsurv. destruct done as [|d1 done].
    + injection Hsurv as <- _. reflexivity.
    + injection Hsurv as <- Hsurv.
      apply Forall_cons in Hdone as [_ Hdone].
      apply Forall_cons in Hdone as [[r Hr] _]. discriminate Hr.
Defined.

Lemma bulk_response_bounds_witness :
  let urls := [pystr "http://a.com"; pystr " "; pystr "192.168.1.1/admin"] in
  exists results summary total trace,
    @bulk ascii_tables no_ip_literals two_class_classifier (Some urls)
    = (Returned (BulkResponse results summary total), trace) /\
    0 <= total <= 3.
Proof.
  intros urls.
  destruct (@bulk_valid_batch ascii_tables no_ip_literals two_class_classifier urls
              two_class_classifier_answers)
    as (results & Hrun & _); [discriminate | simpl; lia |].
  eexists _, _, _, _. split; [exact Hrun|].
  exact (proj1 (@bulk_response_bounds ascii_tables no_ip_literals
                  two_class_classifier _ _ _ _ _ Hrun)).
Defined.

Section single_and_batch.
Context `{UnicodeData} `{IpAddress} `{Classifier}.

(** X10. The two endpoints classify alike.  For a URL that is not blank,
    [predict] on it and [bulk] on the batch of that one URL make the same
    calls in the same order, and either both raise or both return, the
    batch with a single result that carries the URL, label, confidence and
    probabilities of the single response, counted once under its label. *)
Theorem predict_and_bulk_agree (url : str) :
  Str.strip url <> [] ->
  match predict (Some url), bulk (Some [url]) with
  | (Returned (PredictResponse u label probabilities _ confidence), trace),
    (Returned (BulkResponse [r] summary total), trace') =>
      r = {| r_url := u; r_prediction := label; r_confidence := confidence;
             r_probabilities := probabilities |} /\
      u = Str.strip url /\ total = 1 /\ summary !! label = Some 1 /\
      trace = trace'
  | (Raised, trace), (Raised, trace') => trace = trace'
  | _, _ => False
  end.
Proof.
  intros Hurl. rewrite predict_unfold, bulk_unfold.
  change (default [] (Some url)) with url.
  change (default [] (Some [url])) with [url]. cbv beta iota.
  change (500 <? Z.of_nat (length [url])) with false. cbv iota.
  cbn [bulk_loop]. rewrite bulk_step_unfold.
  destruct (Str.strip url) as [|x url'] eqn:Hstrip; [contradiction|].
  unfold bind, ret, classify. cbv zeta.
  destruct (le_inverse_transform (model_predict (extract_features (x :: url'))))
    as [label|] eqn:Hlabel; [|reflexivity].
  cbn [mbind option_bind].
  destruct (confidence_of (model_predict_proba (extract_features (x :: url'))))
    as [confidence|]; [|reflexivity].
  cbn [mbind option_bind app length].
  split; [reflexivity|]. split; [reflexivity|]. split; [reflexivity|].
  split; [|rewrite app_nil_r; reflexivity].
  rewrite summary_lookup. rewrite decide_True.
  - unfold tally. simpl. rewrite (proj2 (eqb_eq label label) eq_refl). reflexivity.
  - unfold le_inverse_transform in Hlabel.
    destruct (0 <=? _); [|discriminate].
    eapply list_elem_of_lookup_2. exact Hlabel.
Qed.
End single_and_batch.

Lemma predict_and_bulk_agree_witness :
  let url := pystr " 192.168.1.1/admin" in
  @Str.strip ascii_tables url <> [] /\
  match @predict ascii_tables no_ip_literals two_class_classifier (Some url),
        @bulk ascii_tables no_ip_literals two_class_classifier (Some [url]) with
  | (Returned (PredictResponse u label probabilities _ confidence), trace),
    (Returned (BulkResponse [r] summary total), trace') =>
      r = {| r_url := u; r_prediction := label; r_confidence := confidence;
             r_probabilities := probabilities |} /\
      u = @Str.strip ascii_tables url /\ total = 1 /\
      summary !! label = Some 1 /\ trace = trace'
  | (Raised, trace), (Raised, trace') => trace = trace'
  | _, _ => False
  end.
Proof.
  intros url.
  assert (Hurl : @Str.strip ascii_tables url <> []) by discriminate.
  split; [exact Hurl|].
  exact (@predict_and_bulk_agree ascii_tables no_ip_literals
           two_class_classifier url Hurl).
Defined.

(** ** Confidence and probabilities *)
Section rounding.
Context `{UnicodeData} `{IpAddress} `{Classifier}.







End rounding.



Section probabilities.
Context `{UnicodeData} `{IpAddress} `{Classifier}.

Lemma comprehension_pairs_lookup (f : Q -> Q) (pairs : list (str * Q))
      (d : gmap str Q) (c : str) :
  NoDup pairs.*1 ->
  foldl (fun d '(cls, p) => <[cls := f p]> d) d pairs !! c
  = match list_find (fun kp => kp.1 = c) pairs with
    | Some (_, (_, p)) => Some (f p)
    | None => d !! c
    end.
Proof.
  revert d. induction pairs as [|[cls p] pairs IH]; intros d Hnodup; [reflexivity|].
  cbn [foldl]. apply NoDup_cons in Hnodup as [Hfresh Hnodup].
  rewrite (IH _ Hnodup). cbn [list_find].
  destruct (decide ((cls, p).1 = c)) as [Heq|Hne]; simpl in *.
  - subst cls.
    destruct (list_find (fun kp => kp.1 = c) pairs) as [[i [k q]]|] eqn:Hfind.
    + exfalso. apply list_find_Some in Hfind as (Hlook & Hk & _).
      simpl in Hk. subst k. apply Hfresh.
      apply list_elem_of_fmap. exists (c, q). split; [reflexivity|].
      eapply list_elem_of_lookup_2. exact Hlook.
    + apply lookup_insert_eq.
  - destruct (list_find (fun kp => kp.1 = c) pairs) as [[i [k q]]|]; simpl.
    + reflexivity.
    + apply lookup_insert_ne. exact Hne.
Qed.

Lemma zip_keys_nodup (keys : list str) (probs : list Q) :
  NoDup keys -> NoDup (zip keys probs).*1.
Proof.
  intros Hnodup. revert probs.
  induction Hnodup as [|k keys Hfresh _ IH]; intros [|p probs]; simpl;
    try constructor; [|apply IH].
  intros Hin. apply Hfresh.
  apply list_elem_of_fmap in Hin as ([k' q] & -> & Hin).
  apply list_elem_of_lookup_1 in Hin as (i & Hi).
  apply lookup_zip_with_Some in Hi as (k'' & q' & [= <- <-] & Hk & _).
  eapply list_elem_of_lookup_2. exact Hk.
Qed.

(** X12. The probabilities of a response are keyed by label in the order
    of [le.classes_]: when no label is listed twice, the label at index
    [i] is bound to the [i]-th probability rounded to 4 decimals, and a
    label with no [i]-th probability is left out; in any case every key is
    a label of [le.classes_]. *)
Theorem prob_dict_by_position (probs : list Q) :
  (forall c v, prob_dict probs !! c = Some v -> c ∈ le_classes) /\
  (NoDup le_classes ->
   forall i c, le_classes !! i = Some c ->
     prob_dict probs !! c = (fun p => round_ndigits p 4) <$> probs !! i).
Proof.
  split.
  - intros c v. unfold prob_dict.
    assert (Hgen : forall (pairs : list (str * Q)) (d : gmap str Q),
               foldl (fun d '(cls, p) => <[cls := round_ndigits p 4]> d) d pairs !! c
               = Some v -> is_Some (d !! c) \/ c ∈ pairs.*1).
    { induction pairs as [|[cls p] pairs IH]; intros d; simpl; [left; eauto|].
      intros Hlookup. apply IH in Hlookup as [Hd | Hin]; [|right; right; exact Hin].
      destruct (decide (cls = c)) as [->|Hne]; [right; left|].
      rewrite lookup_insert_ne in Hd by exact Hne. left. exact Hd. }
    intros Hlookup. apply Hgen in Hlookup as [[? Hempty] | Hin].
    + rewrite lookup_empty in Hempty. discriminate.
    + apply list_elem_of_fmap in Hin as ([k q] & -> & Hin).
      apply list_elem_of_lookup_1 in Hin as (i & Hi).
      apply lookup_zip_with_Some in Hi as (k' & q' & [= <- <-] & Hk & _).
      eapply list_elem_of_lookup_2. exact Hk.
  - intros Hnodup i c Hc. unfold prob_dict.
    rewrite (comprehension_pairs_lookup (fun p => round_ndigits p 4))
      by (apply zip_keys_nodup; exact Hnodup).
    rewrite lookup_empty.
    destruct (probs !! i) as [p|] eqn:Hp; simpl.
    + assert (Hpair : zip le_classes probs !! i = Some (c, p)).
      { apply lookup_zip_with_Some. exists c, p. repeat split; assumption. }
      destruct (list_find (fun kp => kp.1 = c) (zip le_classes probs))
        as [[j [k q]]|] eqn:Hfind.
      * apply list_find_Some in Hfind as (Hj & Hk & _). simpl in Hk. subst k.
        apply lookup_zip_with_Some in Hj as (k' & q' & [= <- <-] & Hkj & Hqj).
        assert (j = i) as -> by (eapply NoDup_lookup; eassumption).
        congruence.
      * exfalso. apply list_find_None in Hfind.
        apply (proj1 (Forall_lookup _ _) Hfind) in Hpair. apply Hpair. reflexivity.
    + destruct (list_find (fun kp => kp.1 = c) (zip le_classes probs))
        as [[j [k q]]|] eqn:Hfind; [|reflexivity].
      exfalso. apply list_find_Some in Hfind as (Hj & Hk & _). simpl in Hk. subst k.
      apply lookup_zip_with_Some in Hj as (k' & q' & [= <- <-] & Hkj & Hqj).
      assert (j = i) as -> by (eapply NoDup_lookup; eassumption).
      congruence.
Qed.
End probabilities.

Lemma prob_dict_by_position_witness :
  NoDup (@le_classes two_class_classifier) /\
  @prob_dict two_class_classifier [1 # 8; 7 # 8]%Q !! pystr "phishing"
  = Some (round_ndigits (7 # 8) 4).
Proof.
  assert (Hnodup : NoDup (@le_classes two_class_classifier)).
  { simpl. apply NoDup_cons. split.
    - intros Hin. apply list_elem_of_singleton in Hin. discriminate Hin.
    - apply NoDup_singleton. }
  split; [exact Hnodup|].
  exact (proj2 (@prob_dict_by_position two_class_classifier [1 # 8; 7 # 8]%Q)
           Hnodup 1%nat (pystr "phishing") eq_refl).
Defined.

(** ** Where the threat scores saturate *)
Section saturation.
Context `{UnicodeData} `{IpAddress}.

Lemma clamp_below (x : Q) : (x <= 1)%Q -> (Qmin x 1 == x)%Q.
Proof. intros Hx. apply Q.min_l. exact Hx. Qed.

Lemma clamp_is_one (x : Q) : (Qmin x 1 == 1)%Q <-> (1 <= x)%Q.
Proof.
  split; [|apply clamp_saturates].
  intros Hmin. rewrite <- Hmin. apply Q.le_min_l.
Qed.

Lemma truediv_ge_1 (a b : Z) : 0 < b -> (1 <= truediv a b)%Q <-> b <= a.
Proof.
  intros Hb. unfold truediv.
  assert (Hbq : (0 < inject_Z b)%Q) by (rewrite (Zlt_Qlt 0 b) in Hb; exact Hb).
  split.
  - intros Hone. apply (Qmult_le_compat_r _ _ (inject_Z b)) in Hone;
      [|apply Qlt_le_weak; exact Hbq].
    rewrite Qmult_1_l in Hone.
    unfold Qdiv in Hone. rewrite <- Qmult_assoc, (Qmult_comm (/ inject_Z b)) in Hone.
    rewrite Qmult_inv_r, Qmult_1_r in Hone
      by (intros Hzero; rewrite Hzero in Hbq; discriminate).
    rewrite <- Zle_Qle in Hone. exact Hone.
  - intros Hle. apply Qle_shift_div_l; [exact Hbq|].
    rewrite Qmult_1_l, <- Zle_Qle. exact Hle.
Qed.

(** X13. Where each score of [get_dna_scores], run on the record of a URL,
    reaches 1: 'Length Risk' exactly from 150 characters on, 'Hyphen Abuse'
    from 6 hyphens, 'Subdomain Depth' from 4 subdomains, 'Special Chars'
    when at least a third of the characters are not alphanumeric, 'Digit
    Density' when at least a quarter are digits.  Below 150 characters
    'Length Risk' is [url_length / 150].  The other three scores are the
    record's flags, 0 or 1. *)
Theorem dna_saturation (url : str) :
  let features := extract_features url in
  let dna := (get_dna_scores url features).1 in
  ((dna_length_risk dna == 1)%Q <-> 150 <= url_length features) /\
  (url_length features <= 150 ->
   (dna_length_risk dna == truediv (url_length features) 150)%Q) /\
  ((dna_hyphen_abuse dna == 1)%Q <-> 6 <= num_hyphens features) /\
  ((dna_subdomain_depth dna == 1)%Q <-> 4 <= num_subdomains features) /\
  ((dna_special_chars dna == 1)%Q <-> (1 # 3 <= special_ratio features)%Q) /\
  ((dna_digit_density dna == 1)%Q <-> (1 # 4 <= digit_ratio features)%Q) /\
  dna_suspicious_kw dna = inject_Z (has_suspicious_word features) /\
  dna_ip_address dna = inject_Z (has_ip features) /\
  dna_encoding_tricks dna = inject_Z (has_hex_encoding features).
Proof.
  intros features dna. subst dna. rewrite get_dna_scores_unfold. cbn [fst].
  cbn [dna_length_risk dna_hyphen_abuse dna_subdomain_depth dna_special_chars
       dna_digit_density dna_suspicious_kw dna_ip_address dna_encoding_tricks].
  subst features. rewrite extract_features_url_length.
  split; [|split; [|split; [|split; [|split; [|split; [|repeat split]]]]]].
  - rewrite clamp_is_one. apply truediv_ge_1. lia.
  - intros Hshort. apply clamp_below, truediv_le_1; [exact Hshort | lia].
  - rewrite clamp_is_one. apply truediv_ge_1. lia.
  - rewrite clamp_is_one, truediv_ge_1 by lia. lia.
  - rewrite clamp_is_one.
    assert (Hthird : ((1 # 3) * 3 == 1)%Q) by reflexivity.
    rewrite <- Hthird at 1. apply Qmult_le_r. reflexivity.
  - rewrite clamp_is_one.
    assert (Hquarter : ((1 # 4) * 4 == 1)%Q) by reflexivity.
    rewrite <- Hquarter at 1. apply Qmult_le_r. reflexivity.
Qed.
End saturation.

Lemma dna_saturation_witness :
  let url := pystr "http://a-b-c-d-e-f-g.example.com/" in
  let features := @extract_features ascii_tables no_ip_literals url in
  6 <= num_hyphens features /\
  (dna_hyphen_abuse (get_dna_scores url features).1 == 1)%Q.
Proof.
  intros url features.
  assert (Hsix : 6 <= num_hyphens features) by (vm_compute; discriminate).
  split; [exact Hsix|].
  destruct (@dna_saturation ascii_tables no_ip_literals url)
    as (_ & _ & Hhyphen & _).
  apply Hhyphen. exact Hsix.
Defined.

(** ** Hostname and path are cut out of the URL *)
Section cut_out.
Context `{UnicodeData} `{IpAddress}.

Lemma urlsplit_steps (url : str) :
  Urllib.urlsplit url =
  let '(scheme, rest) :=
    split_scheme (Urllib.remove_unsafe
                    (Str.lstrip_if Urllib.c0_control_or_space url)) in
  split_after_scheme scheme rest.
Proof. reflexivity. Qed.

Lemma filter_sublist (p : char -> bool) (s : str) : List.filter p s `sublist_of` s.
Proof.
  induction s as [|x s IH]; simpl; [constructor|].
  destruct (p x); [apply sublist_skip | apply sublist_cons]; exact IH.
Qed.

Lemma remove_unsafe_sublist (s : str) : Urllib.remove_unsafe s `sublist_of` s.
Proof.
  unfold Urllib.remove_unsafe, Str.remove_char.
  etransitivity; [apply filter_sublist|].
  etransitivity; apply filter_sublist.
Qed.

Lemma lstrip_if_sublist (p : char -> bool) (s : str) :
  Str.lstrip_if p s `sublist_of` s.
Proof.
  destruct (lstrip_if_suffix p s) as (pre & Hpre).
  rewrite Hpre at 2. apply sublist_inserts_l. reflexivity.
Qed.

Lemma isascii_sublist (s t : str) :
  s `sublist_of` t -> Str.isascii t = true -> Str.isascii s = true.
Proof.
  unfold Str.isascii. induction 1 as [|x s t _ IH|x s t _ IH]; simpl.
  - reflexivity.
  - intros Hall. apply andb_true_iff in Hall as [-> Hall]. exact (IH Hall).
  - intros Hall. apply andb_true_iff in Hall as [_ Hall]. exact (IH Hall).
Qed.

Lemma split_scheme_sublist (url : str) : (split_scheme url).2 `sublist_of` url.
Proof.
  unfold split_scheme.
  destruct (Str.find (chr ":") url) as [[|i']|]; try reflexivity.
  destruct url as [|ch0 url']; [reflexivity|].
  destruct (_ && _); [apply sublist_drop | reflexivity].
Qed.

Lemma split1_fst_sublist (ch : char) (s : str) : (Str.split1 ch s).1 `sublist_of` s.
Proof.
  unfold Str.split1. destruct (Str.find ch s); [apply sublist_take | reflexivity].
Qed.

Lemma find_from_ge (ch : char) (start : nat) (s : str) (w : nat) :
  Str.find_from ch start s = Some w -> (start <= w)%nat.
Proof.
  unfold Str.find_from. destruct (Str.find ch (drop start s)); simpl; [|discriminate].
  intros [= <-]. lia.
Qed.

(** The netloc and what follows it are the string after the two slashes. *)
Lemma splitnetloc_parts (s netloc rest : str) :
  (2 <= length s)%nat -> Urllib._splitnetloc s 2 = (netloc, rest) ->
  netloc ++ rest = drop 2 s.
Proof.
  intros Hlen. unfold Urllib._splitnetloc.
  set (delim := foldl _ _ _).
  assert (Hdelim : (2 <= delim <= length s)%nat).
  { subst delim. cbn [foldl].
    destruct (Str.find_from (chr "/") 2 s) as [w1|] eqn:H1;
      [apply find_from_ge in H1|];
    destruct (Str.find_from (chr "?") 2 s) as [w2|] eqn:H2;
      [apply find_from_ge in H2| |apply find_from_ge in H2|];
    destruct (Str.find_from (chr "#") 2 s) as [w3|] eqn:H3;
      try apply find_from_ge in H3; lia. }
  intros [= <- <-].
  rewrite <- (take_drop delim s) at 3.
  rewrite drop_app_le by (rewrite length_take; lia). reflexivity.
Qed.

Lemma startswith_length (prefix s : str) :
  Str.startswith prefix s = true -> (length prefix <= length s)%nat.
Proof.
  intros Hs. apply startswith_spec in Hs.
  rewrite <- Hs at 1. rewrite length_take. lia.
Qed.

Lemma split1_eq_sublist (ch : char) (s a b : str) :
  Str.split1 ch s = (a, b) -> a `sublist_of` s.
Proof.
  intros Heq. pose proof (split1_fst_sublist ch s) as Hsub.
  rewrite Heq in Hsub. exact Hsub.
Qed.

(** Cutting off the fragment, then the query, leaves a part of the string. *)
Lemma cut_fragment_query (url : str) :
  (let '(url1, _) :=
     if Str.has_char (chr "#") url then Str.split1 (chr "#") url else (url, []) in
   let '(url2, _) :=
     if Str.has_char (chr "?") url1 then Str.split1 (chr "?") url1 else (url1, []) in
   url2) `sublist_of` url.
Proof.
  destruct (Str.has_char (chr "#") url).
  - destruct (Str.split1 (chr "#") url) as [url1 frag] eqn:Hfrag.
    apply split1_eq_sublist in Hfrag.
    destruct (Str.has_char (chr "?") url1).
    + destruct (Str.split1 (chr "?") url1) as [url2 q] eqn:Hq.
      apply split1_eq_sublist in Hq. etransitivity; eassumption.
    + exact Hfrag.
  - destruct (Str.has_char (chr "?") url).
    + destruct (Str.split1 (chr "?") url) as [url2 q] eqn:Hq.
      apply split1_eq_sublist in Hq. exact Hq.
    + reflexivity.
Qed.

(** What [split_after_scheme] returns, when it returns. *)
Lemma split_after_scheme_Some (scheme url s netloc path query fragment : str) :
  split_after_scheme scheme url = Some (s, netloc, path, query, fragment) ->
  exists rest,
    s = scheme /\
    (if Str.startswith (pystr "//") url
     then Urllib._splitnetloc url 2 = (netloc, rest)
     else netloc = [] /\ rest = url) /\
    path `sublist_of` rest.
Proof.
  unfold split_after_scheme. intros Hsome.
  assert (Hshape : exists nl rest v,
    (if Str.startswith (pystr "//") url
     then Urllib._splitnetloc url 2 = (nl, rest)
     else nl = [] /\ rest = url) /\
    (let '(url1, fragment) :=
       if Str.has_char (chr "#") rest then Str.split1 (chr "#") rest
       else (rest, []) in
     let '(url2, query) :=
       if Str.has_char (chr "?") url1 then Str.split1 (chr "?") url1
       else (url1, []) in
     if v && Urllib._checknetloc nl
     then Some (scheme, nl, url2, query, fragment) else None)
    = Some (s, netloc, path, query, fragment)).
  { destruct (Str.startswith (pystr "//") url).
    - destruct (Urllib._splitnetloc url 2) as [nl rest].
      destruct (_ || _); [exists nl, rest, false; split; [reflexivity | exact Hsome]|].
      destruct (_ && _); eexists nl, rest, _; split; (reflexivity || exact Hsome).
    - exists [], url, true. split; [split; reflexivity | exact Hsome]. }
  destruct Hshape as (nl & rest & v & Hnetloc & Hrest). clear Hsome.
  pose proof (cut_fragment_query rest) as Hcut.
  destruct (if Str.has_char (chr "#") rest then Str.split1 (chr "#") rest
            else (rest, [])) as [url1 frag].
  destruct (if Str.has_char (chr "?") url1 then Str.split1 (chr "?") url1
            else (url1, [])) as [url2 q].
  destruct (v && Urllib._checknetloc nl); [|discriminate].
  injection Hrest as <- <- <- _ _.
  exists rest. split; [reflexivity|]. split; [exact Hnetloc | exact Hcut].
Qed.

(** Netloc and path are, in this order, parts of what stands behind the
    scheme, after the two slashes if there are any. *)
Lemma split_after_scheme_sublist (scheme url s netloc path query fragment : str) :
  split_after_scheme scheme url = Some (s, netloc, path, query, fragment) ->
  netloc ++ path `sublist_of`
    (if Str.startswith (pystr "//") url then drop 2 url else url).
Proof.
  intros Hsome.
  apply split_after_scheme_Some in Hsome as (rest & _ & Hnetloc & Hpath).
  destruct (Str.startswith (pystr "//") url) eqn:Hslashes.
  - apply splitnetloc_parts in Hnetloc;
      [|exact (startswith_length _ _ Hslashes)].
    rewrite <- Hnetloc. apply sublist_app; [reflexivity | exact Hpath].
  - destruct Hnetloc as [-> ->]. exact Hpath.
Qed.

Lemma urlsplit_sublist (url s netloc path query fragment : str) :
  Urllib.urlsplit url = Some (s, netloc, path, query, fragment) ->
  netloc ++ path `sublist_of` url.
Proof.
  rewrite urlsplit_steps.
  set (url' := Urllib.remove_unsafe _).
  assert (Hurl' : url' `sublist_of` url).
  { subst url'. etransitivity; [apply remove_unsafe_sublist | apply lstrip_if_sublist]. }
  pose proof (split_scheme_sublist url') as Hrest.
  destruct (split_scheme url') as [scheme rest]. cbn [snd] in Hrest.
  intros Hsome. apply split_after_scheme_sublist in Hsome.
  etransitivity; [exact Hsome|].
  etransitivity; [|exact Hurl'].
  etransitivity; [|exact Hrest].
  destruct (Str.startswith (pystr "//") rest); [apply sublist_drop | reflexivity].
Qed.

(** With [http://] put in front, the scheme is [http] and the two slashes
    start what follows it. *)
Lemma split_scheme_prefixed (url : str) :
  split_scheme (pystr "http://" ++ url) = (pystr "http", pystr "//" ++ url).
Proof. reflexivity. Qed.

Lemma urlsplit_prefixed_sublist (url s netloc path query fragment : str) :
  Urllib.urlsplit (pystr "http://" ++ url) = Some (s, netloc, path, query, fragment) ->
  netloc ++ path `sublist_of` url.
Proof.
  rewrite urlsplit_steps.
  change (Str.lstrip_if Urllib.c0_control_or_space (pystr "http://" ++ url))
    with (pystr "http://" ++ url).
  change (Urllib.remove_unsafe (pystr "http://" ++ url))
    with (pystr "http://" ++ Urllib.remove_unsafe url).
  rewrite split_scheme_prefixed.
  intros Hsome. apply split_after_scheme_sublist in Hsome.
  etransitivity; [exact Hsome|]. apply remove_unsafe_sublist.
Qed.

Lemma splitparams_sublist (url : str) : (Urllib._splitparams url).1 `sublist_of` url.
Proof.
  unfold Urllib._splitparams.
  destruct (Str.has_char (chr "/") url).
  - destruct (Str.find_from _ _ url); [apply sublist_take | reflexivity].
  - destruct (Str.find _ url); [apply sublist_take | reflexivity].
Qed.

(** What [urlparse] gives as netloc and path, when it returns, is cut out
    of whatever the netloc and path of [urlsplit] are cut out of. *)
Lemma urlparse_sublist (url base : str) (r : Urllib.ParseResult) :
  (forall s netloc path query fragment,
     Urllib.urlsplit url = Some (s, netloc, path, query, fragment) ->
     netloc ++ path `sublist_of` base) ->
  Urllib.urlparse url = Some r ->
  Urllib.netloc r ++ Urllib.path r `sublist_of` base.
Proof.
  intros Hsplit. unfold Urllib.urlparse.
  destruct (Urllib.urlsplit url)
    as [[[[[scheme netloc] path] query] fragment]|]; [|discriminate].
  specialize (Hsplit _ _ _ _ _ eq_refl). cbn [mbind option_bind].
  pose proof (splitparams_sublist path) as Hparams.
  destruct (_ && _).
  - destruct (Urllib._splitparams path) as [path' params]. cbn [fst] in Hparams.
    intros [= <-]. cbn [Urllib.netloc Urllib.path].
    etransitivity; [|exact Hsplit]. apply sublist_app; [reflexivity | exact Hparams].
  - intros [= <-]. exact Hsplit.
Qed.

Lemma partition_parts (ch : char) (s a b c : str) :
  Str.partition ch s = (a, b, c) -> a ++ b ++ c = s.
Proof.
  unfold Str.partition. destruct (Str.find ch s) as [i|] eqn:Hfind.
  - intros [= <- <- <-].
    assert (Hi : s !! i = Some ch).
    { clear -Hfind. revert i Hfind. induction s as [|x s IH]; intros i; [discriminate|].
      rewrite find_cons. destruct (x =? ch)%N eqn:Hx.
      - intros [= <-]. apply N.eqb_eq in Hx. subst x. reflexivity.
      - destruct (Str.find ch s) as [j|]; [|discriminate].
        intros [= <-]. exact (IH j eq_refl). }
    rewrite <- (take_drop i s) at 3. f_equal.
    rewrite (drop_S _ _ _ Hi). reflexivity.
  - intros [= <- <- <-]. rewrite !app_nil_r. reflexivity.
Qed.

Lemma partition_fst_sublist (ch : char) (s : str) :
  (Str.partition ch s).1.1 `sublist_of` s.
Proof.
  unfold Str.partition. destruct (Str.find ch s); [apply sublist_take | reflexivity].
Qed.

Lemma partition_last_sublist (ch : char) (s : str) :
  (Str.partition ch s).2 `sublist_of` s.
Proof.
  unfold Str.partition.
  destruct (Str.find ch s); [apply sublist_drop | apply sublist_nil_l].
Qed.

Lemma rpartition_last_sublist (ch : char) (s : str) :
  (Str.rpartition ch s).2 `sublist_of` s.
Proof.
  unfold Str.rpartition. destruct (Str.rfind ch s); [apply sublist_drop | reflexivity].
Qed.

(** The host part of the netloc is cut out of the netloc. *)
Lemma hostinfo_sublist (r : Urllib.ParseResult) :
  (Urllib._hostinfo r).1 `sublist_of` Urllib.netloc r.
Proof.
  unfold Urllib._hostinfo.
  pose proof (rpartition_last_sublist (chr "@") (Urllib.netloc r)) as Hinfo.
  destruct (Str.rpartition (chr "@") (Urllib.netloc r)) as [[userinfo at_sign] hostinfo].
  cbn [snd] in Hinfo.
  pose proof (partition_last_sublist (chr "[") hostinfo) as Hbracketed.
  pose proof (partition_fst_sublist (chr ":") hostinfo) as Hplain.
  destruct (Str.partition (chr "[") hostinfo) as [[before have_open_br] bracketed].
  cbn [snd] in Hbracketed.
  destruct have_open_br as [|br have_open_br].
  - destruct (Str.partition (chr ":") hostinfo) as [[host colon] port].
    cbn [fst] in *. etransitivity; eassumption.
  - pose proof (partition_fst_sublist (chr "]") bracketed) as Hhost.
    destruct (Str.partition (chr "]") bracketed) as [[host close_br] port].
    destruct (Str.partition (chr ":") port) as [[port1 colon] port2].
    cbn [fst] in *.
    etransitivity; [exact Hhost|]. etransitivity; eassumption.
Qed.

Lemma ascii_lower_keeps (ch x : char) :
  Str.ascii_lower_letter ch = false ->
  (ch =? Str.ascii_lower x)%N = true -> (ch =? x)%N = true.
Proof.
  unfold Str.ascii_lower, Str.ascii_upper_letter, Str.ascii_lower_letter, Str.between.
  intros Hch. destruct ((65 <=? x)%N && (x <=? 90)%N) eqn:Hx; [|trivial].
  intros Heq. apply N.eqb_eq in Heq.
  apply andb_true_iff in Hx as [Hlo Hhi].
  apply N.leb_le in Hlo, Hhi.
  apply andb_false_iff in Hch as [Hch | Hch]; apply N.leb_gt in Hch; lia.
Qed.

(** Lowering ASCII letters adds no occurrence of a character that is not
    a small letter. *)
Lemma count_map_lower (ch : char) (s : str) :
  Str.ascii_lower_letter ch = false ->
  Str.count ch (List.map Str.ascii_lower s) <= Str.count ch s.
Proof.
  intros Hch. unfold Str.count.
  induction s as [|x s IH]; [reflexivity|].
  cbn [List.map]. rewrite !sum_bool_cons.
  destruct (ch =? Str.ascii_lower x)%N eqn:Hx.
  - rewrite (ascii_lower_keeps ch x Hch Hx). lia.
  - destruct (ch =? x)%N; lia.
Qed.

Lemma sum_bool_sublist (p : char -> bool) (s t : str) :
  s `sublist_of` t -> Str.sum_bool p s <= Str.sum_bool p t.
Proof.
  induction 1 as [|x s t _ IH|x s t _ IH]; [reflexivity| |];
    rewrite ?sum_bool_cons; [lia|].
  destruct (p x); lia.
Qed.

(** The hostname of an all-ASCII netloc: no longer than the netloc, and
    with no more dots. *)
Lemma hostname_within_netloc (r : Urllib.ParseResult) :
  Str.isascii (Urllib.netloc r) = true ->
  (length (default [] (Urllib.hostname r)) <= length (Urllib.netloc r))%nat /\
  Str.count (chr ".") (default [] (Urllib.hostname r))
  <= Str.count (chr ".") (Urllib.netloc r).
Proof.
  intros Hascii. unfold Urllib.hostname.
  pose proof (hostinfo_sublist r) as Hsub.
  destruct (Urllib._hostinfo r).1 as [|ch0 host'] eqn:Hhost.
  { split; [simpl; lia | apply count_nonneg]. }
  set (host := ch0 :: host') in *. clearbody host. clear Hhost ch0 host'.
  destruct (Str.partition (chr "%") host) as [[name percent] zone] eqn:Hparts.
  apply partition_parts in Hparts.
  change (default [] (Some ?h)) with h.
  assert (Hname : Str.isascii name = true).
  { apply (isascii_sublist name host); [|exact (isascii_sublist _ _ Hsub Hascii)].
    rewrite <- Hparts. apply sublist_inserts_r. reflexivity. }
  rewrite (lower_ascii name Hname).
  split.
  - apply sublist_length in Hsub. rewrite <- Hparts in Hsub.
    rewrite !length_app in *. rewrite length_map. exact Hsub.
  - apply (sum_bool_sublist (N.eqb (chr "."))) in Hsub.
    fold (Str.count (chr ".") host) in Hsub.
    fold (Str.count (chr ".") (Urllib.netloc r)) in Hsub.
    rewrite <- Hparts in Hsub. rewrite !count_app in *.
    pose proof (count_map_lower (chr ".") name eq_refl). lia.
Qed.

(** Netloc and path of the parsed URL are cut out of the URL, whether
    [http://] was put in front of it or not. *)
Lemma parse_step_sublist (url : str) (r : Urllib.ParseResult) :
  Urllib.urlparse (if Str.startswith (pystr "http") url then url
                   else pystr "http://" ++ url) = Some r ->
  Urllib.netloc r ++ Urllib.path r `sublist_of` url.
Proof.
  destruct (Str.startswith (pystr "http") url).
  - apply urlparse_sublist. intros s netloc path query fragment.
    apply urlsplit_sublist.
  - apply urlparse_sublist. intros s netloc path query fragment.
    apply urlsplit_prefixed_sublist.
Qed.

Lemma extract_features_lengths (url : str) :
  hostname_length (extract_features url) = Str.len (parse_step url).1 /\
  path_length (extract_features url) = Str.len (parse_step url).2.
Proof. unfold extract_features. destruct (parse_step url). split; reflexivity. Qed.

Lemma extract_features_num_dots (url : str) :
  num_dots (extract_features url) = Str.count (chr ".") url.
Proof. unfold extract_features. destruct (parse_step url). reflexivity. Qed.

(** X14. The parsed path is never longer than the URL, whatever the URL
    is: parsed or not, with [http://] put in front or not. *)
Theorem path_within_url (url : str) :
  0 <= path_length (extract_features url) <= url_length (extract_features url).
Proof.
  destruct (extract_features_lengths url) as [_ ->].
  rewrite extract_features_url_length.
  unfold Str.len. split; [lia|]. apply inj_le.
  unfold parse_step.
  pose proof (parse_step_sublist url) as Hsub.
  destruct (Urllib.urlparse _) as [r|]; cbn [snd]; [|lia].
  specialize (Hsub r eq_refl). apply sublist_length in Hsub.
  rewrite length_app in Hsub. lia.
Qed.

(** X15. For an all-ASCII URL, hostname and path are disjoint parts of
    the URL: their lengths together do not exceed its length, and
    [num_subdomains] is at most [num_dots - 1], or 0 where that is
    negative. *)
Theorem hostname_and_path_within_url (url : str) :
  Str.isascii url = true ->
  hostname_length (extract_features url) + path_length (extract_features url)
  <= url_length (extract_features url) /\
  num_subdomains (extract_features url)
  <= Z.max (num_dots (extract_features url) - 1) 0.
Proof.
  intros Hascii.
  destruct (extract_features_lengths url) as [-> ->].
  rewrite extract_features_url_length, extract_features_num_subdomains,
    extract_features_num_dots.
  unfold parse_step.
  pose proof (parse_step_sublist url) as Hsub.
  destruct (Urllib.urlparse _) as [r|]; cbn [fst snd].
  - specialize (Hsub r eq_refl).
    assert (Hnetloc : Str.isascii (Urllib.netloc r) = true).
    { apply (isascii_sublist _ (Urllib.netloc r ++ Urllib.path r));
        [apply sublist_inserts_r; reflexivity|].
      exact (isascii_sublist _ _ Hsub Hascii). }
    destruct (hostname_within_netloc r Hnetloc) as [Hlen Hdots].
    pose proof (sum_bool_sublist (N.eqb (chr ".")) _ _ Hsub) as Hcount.
    fold (Str.count (chr ".") (Urllib.netloc r ++ Urllib.path r)) in Hcount.
    fold (Str.count (chr ".") url) in Hcount.
    rewrite count_app in Hcount.
    pose proof (count_nonneg (chr ".") (Urllib.path r)) as Hpath.
    apply sublist_length in Hsub. rewrite length_app in Hsub.
    unfold Str.len. split; [lia|].
    destruct (default [] (Urllib.hostname r)) as [|ch0 host] eqn:Hhost; [lia|].
    rewrite split_length. lia.
  - unfold Str.len. simpl length. split; lia.
Qed.
End cut_out.

Lemma hostname_and_path_within_url_witness :
  Str.isascii (pystr "HTTP://User@A.Example.COM:80/x.y?z") = true /\
  hostname_length (@extract_features ascii_tables no_ip_literals
                     (pystr "HTTP://User@A.Example.COM:80/x.y?z"))
  + path_length (@extract_features ascii_tables no_ip_literals
                   (pystr "HTTP://User@A.Example.COM:80/x.y?z"))
  <= url_length (@extract_features ascii_tables no_ip_literals
                   (pystr "HTTP://User@A.Example.COM:80/x.y?z")) /\
  num_subdomains (@extract_features ascii_tables no_ip_literals
                    (pystr "HTTP://User@A.Example.COM:80/x.y?z"))
  <= Z.max (num_dots (@extract_features ascii_tables no_ip_literals
                        (pystr "HTTP://User@A.Example.COM:80/x.y?z")) - 1) 0.
Proof.
  split; [reflexivity|].
  apply (@hostname_and_path_within_url ascii_tables no_ip_literals). reflexivity.
Defined.

(** ** What stands before the first colon is the hostname *)
Section before_colon.
Context `{UnicodeData} `{IpAddress}.









End before_colon.

